(** * Naval helm command interface: the command pipeline

    A shallow embedding of
      - src/app/api/process-command/route.ts   (module [Route])
      - src/components/NavalHelmInterface.tsx  (module [Helm])
    together with the JavaScript primitives both files lean on
    (module [Js]).

    Conventions of the embedding.
      - A JavaScript string is a [string]; each [ascii] stands for one code
        unit in the Latin-1 range.
      - A JSON number is an integer ([Z]); the ship's fields are integers
        in the data model, fractional numbers are outside the embedding.
        Where the program computes with a number (a division, a
        comparison) the integer is taken as the IEEE 754 double it is in
        JavaScript, with the operations of [SpecFloat].
      - A value that came out of [JSON.parse] is a [json]; a JavaScript
        value read from a property is a [jsval := option json], [None]
        being [undefined].
      - Calls that leave the program (the completion service, the HTTP
        layer, audio playback, speech synthesis) are represented by their
        outcome, supplied as an argument. *)

From Stdlib Require Import ZArith String Ascii List Bool Lia DecimalString SpecFloat.
Import ListNotations.
Open Scope string_scope.
Open Scope Z_scope.

Set Warnings "-register-all".

(* ------------------------------------------------------------------ *)
(** ** JavaScript strings and values *)

Module Js.

(** [String.prototype.trim] removes white space and line terminators; in
    the Latin-1 range these are TAB, LF, VT, FF, CR, SPACE and NBSP. *)
Definition isWhite (c : ascii) : bool :=
  let n := nat_of_ascii c in
  (((9 <=? n) && (n <=? 13)) || (n =? 32) || (n =? 160))%nat.

Fixpoint trimStart (s : string) : string :=
  match s with
  | String c rest => if isWhite c then trimStart rest else s
  | EmptyString => EmptyString
  end.

Fixpoint trimEnd (s : string) : string :=
  match s with
  | String c rest =>
      match trimEnd rest with
      | EmptyString => if isWhite c then EmptyString else String c EmptyString
      | r => String c r
      end
  | EmptyString => EmptyString
  end.

Definition trim (s : string) : string := trimEnd (trimStart s).

(** [\d] of a regular expression without the [u] flag: ASCII digits. *)
Definition isDigit (c : ascii) : bool :=
  let n := nat_of_ascii c in ((48 <=? n) && (n <=? 57))%nat.

Fixpoint repeatChar (c : ascii) (n : nat) : string :=
  match n with
  | O => EmptyString
  | S k => String c (repeatChar c k)
  end.

(** [s.padStart(n, c)] for a one-character filler. *)
Definition padStart (n : nat) (c : ascii) (s : string) : string :=
  repeatChar c (n - String.length s) ++ s.

(** [s.split('')]: one string per code unit. *)
Fixpoint splitChars (s : string) : list string :=
  match s with
  | EmptyString => []
  | String c rest => String c EmptyString :: splitChars rest
  end.

(** [Array.prototype.join] on an array whose elements are strings or
    [undefined]; [undefined] contributes the empty string. *)
Fixpoint join (sep : string) (l : list (option string)) : string :=
  match l with
  | [] => EmptyString
  | [x] => match x with Some s => s | None => EmptyString end
  | x :: rest =>
      (match x with Some s => s | None => EmptyString end) ++ sep ++ join sep rest
  end.

(** [parseInt(d)] for a one-character string [d]; [None] is [NaN]. *)
Definition parseInt (d : string) : option Z :=
  match d with
  | String c EmptyString =>
      if isDigit c then Some (Z.of_nat (nat_of_ascii c) - 48) else None
  | _ => None
  end.

(** [s.startsWith(p)] *)
Fixpoint startsWith (p s : string) : bool :=
  match p, s with
  | EmptyString, _ => true
  | String a p', String b s' => Ascii.eqb a b && startsWith p' s'
  | String _ _, EmptyString => false
  end.

(** [s.includes(p)] *)
Fixpoint includes (p s : string) : bool :=
  startsWith p s ||
  match s with
  | EmptyString => false
  | String _ s' => includes p s'
  end.

Fixpoint dropChars (n : nat) (s : string) : string :=
  match n, s with
  | O, _ => s
  | S k, String _ s' => dropChars k s'
  | S _, EmptyString => EmptyString
  end.

Fixpoint takeChars (n : nat) (s : string) : string :=
  match n, s with
  | O, _ => EmptyString
  | S k, String c s' => String c (takeChars k s')
  | S _, EmptyString => EmptyString
  end.

(** Values produced by [JSON.parse]; the keys of an object are distinct. *)
Inductive json : Type :=
| JNull
| JBool (b : bool)
| JNum (n : Z)
| JStr (s : string)
| JArr (items : list json)
| JObj (fields : list (string * json)).

(** A JavaScript value as read from a variable or a property:
    [None] is [undefined]. *)
Definition jsval := option json.
Definition undefined : jsval := None.

(** [Number.prototype.toString] on an integer below 10^21 in absolute
    value: its decimal digits.  From 10^21 on the source prints exponent
    notation, which is not modelled: there the digits are still printed. *)
Definition numToString (n : Z) : string := NilZero.string_of_int (Z.to_int n).

(** The conversion of a parsed value to a string, as done by [v.toString()]
    (for [v] other than [null]), by [new Error(v)] and, element by element,
    by [Array.prototype.join].  [None] is a thrown [TypeError]: an object
    parsed from JSON converts through [Object.prototype.toString] unless it
    carries a key [toString] of its own, which is data and cannot be
    called.  Inside [join], [null] contributes the empty string. *)
Fixpoint toString (v : json) : option string :=
  match v with
  | JNull => Some "null"
  | JBool true => Some "true"
  | JBool false => Some "false"
  | JNum n => Some (numToString n)
  | JStr s => Some s
  | JArr items =>
      (fix joinItems (l : list json) : option string :=
         match l with
         | [] => Some EmptyString
         | x :: rest =>
             match (match x with JNull => Some EmptyString | _ => toString x end) with
             | None => None
             | Some sx =>
                 match rest with
                 | [] => Some sx
                 | _ => match joinItems rest with
                        | None => None
                        | Some sr => Some (sx ++ "," ++ sr)
                        end
                 end
             end
         end) items
  | JObj fields =>
      (fix hasOwn (l : list (string * json)) : option string :=
         match l with
         | [] => Some "[object Object]"
         | (k, _) :: rest => if String.eqb k "toString" then None else hasOwn rest
         end) fields
  end.

(** Truthiness ([ToBoolean]). *)
Definition truthy (v : jsval) : bool :=
  match v with
  | None => false
  | Some JNull => false
  | Some (JBool b) => b
  | Some (JNum n) => negb (n =? 0)
  | Some (JStr s) => negb (String.eqb s EmptyString)
  | Some (JArr _) => true
  | Some (JObj _) => true
  end.

(** [v !== null] *)
Definition notNull (v : jsval) : bool :=
  match v with
  | Some JNull => false
  | _ => true
  end.

Fixpoint lookup (k : string) (fields : list (string * json)) : jsval :=
  match fields with
  | [] => None
  | (k', v) :: rest => if String.eqb k k' then Some v else lookup k rest
  end.

(** [o.k] for a value [o] that is neither [null] nor [undefined]; the keys
    read by the program are own data properties of objects only. *)
Definition prop (k : string) (o : json) : jsval :=
  match o with
  | JObj fields => lookup k fields
  | _ => None
  end.

(** Assignment [o.k = v] on an object literal: an existing key keeps its
    place, a new key goes last. *)
Fixpoint setField (k : string) (v : json) (fields : list (string * json))
  : list (string * json) :=
  match fields with
  | [] => [(k, v)]
  | (k', v') :: rest =>
      if String.eqb k k' then (k, v) :: rest else (k', v') :: setField k v rest
  end.

(** [s.toUpperCase()] on the letters a-z. *)
Definition upperChar (c : ascii) : ascii :=
  let n := nat_of_ascii c in
  if ((97 <=? n) && (n <=? 122))%nat then ascii_of_nat (n - 32) else c.

Fixpoint toUpperCase (s : string) : string :=
  match s with
  | EmptyString => EmptyString
  | String c rest => String (upperChar c) (toUpperCase rest)
  end.

(** A value or a thrown error with its [message]; statements run in
    sequence until one throws. *)
Inductive Result (A : Type) : Type :=
| Ok (a : A)
| Throw (message : string).
Arguments Ok {A} a.
Arguments Throw {A} message.

Definition bind {A B : Type} (r : Result A) (k : A -> Result B) : Result B :=
  match r with
  | Ok a => k a
  | Throw m => Throw m
  end.

Notation "x <- e ;; k" := (bind e (fun x => k))
  (at level 61, e at next level, right associativity).

(** [response.ok] *)
Definition isOk (status : Z) : bool := (200 <=? status) && (status <=? 299).

(** The double of an integer: the integer itself up to 2^53, the nearest
    double (ties to even) beyond, infinity on overflow. *)
Definition toDouble (z : Z) : spec_float := binary_normalize 53 1024 z 0 false.

(** [x / y] on doubles. *)
Definition divDouble (x y : spec_float) : spec_float := SFdiv 53 1024 x y.

(** [Math.round(x)]: the integer nearest to the exact value of the double,
    a tie going up; [None] for [NaN] and the infinities, which it gives
    back.  A finite double is [m * 2^e] for integers [m] and [e], so the
    result is computed exactly. *)
Definition Math_round (x : spec_float) : option Z :=
  match x with
  | S754_zero _ => Some 0
  | S754_finite negative m e =>
      let v := if negative then Z.neg m else Z.pos m in
      Some (if 0 <=? e then v * 2 ^ e
            else (2 * v + 2 ^ (- e)) / 2 ^ (- e + 1))
  | S754_infinity _ => None
  | S754_nan => None
  end.

(** [ToNumber(v)], as the comparisons [<], [>], [>=] and [Math.abs] apply
    it to one operand: [undefined] is [NaN], [null] is 0, a boolean 0 or
    1, an array or an object goes through its conversion to a string
    ([None] when that throws).  The numeric value of a text is the work of
    the built-in [numberOfText], a parameter. *)
Definition toNumber (numberOfText : string -> spec_float) (v : jsval)
  : option spec_float :=
  match v with
  | None => Some S754_nan
  | Some JNull => Some (S754_zero false)
  | Some (JBool b) => Some (toDouble (if b then 1 else 0))
  | Some (JNum n) => Some (toDouble n)
  | Some (JStr s) => Some (numberOfText s)
  | Some (JArr items) => option_map numberOfText (toString (JArr items))
  | Some (JObj fields) => option_map numberOfText (toString (JObj fields))
  end.

(** Whether a string begins, or ends, with a character that [trim] and
    [\s] take for white space. *)
Definition startsWhite (s : string) : bool :=
  match s with
  | String c _ => isWhite c
  | EmptyString => false
  end.

Fixpoint endsWhite (s : string) : bool :=
  match s with
  | EmptyString => false
  | String c EmptyString => isWhite c
  | String _ rest => endsWhite rest
  end.

Fixpoint containsChar (c : ascii) (s : string) : bool :=
  match s with
  | EmptyString => false
  | String a rest => Ascii.eqb a c || containsChar c rest
  end.


End Js.

(* ------------------------------------------------------------------ *)
(** ** src/app/api/process-command/route.ts *)

Module Route.
Import Js.

(** [NAVAL_NUMBERS[k]]; a key outside 0..9, or [NaN], reads [undefined]. *)
Definition NAVAL_NUMBERS (k : option Z) : option string :=
  match k with
  | Some 0 => Some "zero"
  | Some 1 => Some "one"
  | Some 2 => Some "two"
  | Some 3 => Some "three"
  | Some 4 => Some "four"
  | Some 5 => Some "five"
  | Some 6 => Some "six"
  | Some 7 => Some "seven"
  | Some 8 => Some "eight"
  | Some 9 => Some "niner"
  | _ => None
  end.

(** The body of [formatNavalCourse] after [course.toString()]. *)
Definition pronounceDigits (text : string) : string :=
  join " " (map (fun digit => NAVAL_NUMBERS (parseInt digit))
                (splitChars (padStart 3 "0"%char text))).

(** [formatNavalCourse(course)] on a number. *)
Definition formatNavalCourse (course : Z) : string :=
  pronounceDigits (numToString course).

(** What the function does with whatever value reaches it at run time:
    [course.toString()] throws on [undefined] and on an object whose
    conversion throws ([None]); [null] never reaches it. *)
Definition formatNavalCourseAny (course : jsval) : option string :=
  match course with
  | None => None
  | Some v => option_map pronounceDigits (toString v)
  end.

(** Outcome of one call of [client.chat.completions.create]: the call
    throws, or it returns and [choices?.[0]?.message?.content] reads
    [content] ([None] when a link of the chain is missing). *)
Inductive Completion : Type :=
| ApiThrows (message : string)
| ApiReturns (content : option string).

(** The collaborators of one request.  [correction] receives the command,
    [interpretation] the current state and the corrected command;
    [JSON_parse] is [JSON.parse], [None] when it throws. *)
Record Collaborators : Type := {
  correction : json -> Completion;
  interpretation : jsval -> string -> Completion;
  JSON_parse : string -> option json
}.

Record HttpResponse : Type := { status : Z; body : json }.

(** [NextResponse.json({ error: msg }, { status: code })] *)
Definition errorResponse (msg : string) (code : Z) : HttpResponse :=
  {| status := code; body := JObj [("error", JStr msg)] |}.

Fixpoint fromFirst (c : ascii) (s : string) : option string :=
  match s with
  | EmptyString => None
  | String a rest => if Ascii.eqb a c then Some s else fromFirst c rest
  end.

Fixpoint uptoLast (c : ascii) (s : string) : option string :=
  match s with
  | EmptyString => None
  | String a rest =>
      match uptoLast c rest with
      | Some r => Some (String a r)
      | None => if Ascii.eqb a c then Some (String a EmptyString) else None
      end
  end.

(** [rawResponse.match(/\{[\s\S]*\}/)]: the span from the first opening
    brace to the last closing brace after it, [None] when there is none. *)
Definition matchObjectSpan (raw : string) : option string :=
  match fromFirst "{"%char raw with
  | Some s => uptoLast "}"%char s
  | None => None
  end.

(** The pattern [/course (\d{3})/] matched at the start of [s]. *)
Definition courseRefAt (s : string) : bool :=
  startsWith "course " s &&
  match dropChars 7 s with
  | String a (String b (String c _)) => isDigit a && isDigit b && isDigit c
  | _ => false
  end.

(** [s.replace(/course (\d{3})/, replacement)] for a replacement without
    [$]: the pattern has no [g] flag, the leftmost match is rewritten. *)
Fixpoint replaceCourseRef (replacement s : string) : string :=
  if courseRefAt s then replacement ++ dropChars 10 s
  else match s with
       | EmptyString => EmptyString
       | String c rest => String c (replaceCourseRef replacement rest)
       end.

Definition contentTruthy (content : option string) : bool :=
  match content with
  | Some s => negb (String.eqb s EmptyString)
  | None => false
  end.

Definition contentText (content : option string) : string :=
  match content with Some s => s | None => EmptyString end.

(** Lines 241-254: structure validation and the rewriting of the course in
    the confirmation.  Messages of errors raised by the engine are those
    of V8. *)
Definition validateAndFormat (interp : json) : Result (list (string * json)) :=
  match interp with
  | JNull => Throw "Cannot read properties of null (reading 'stateUpdates')"
  | _ =>
    let stateUpdates := prop "stateUpdates" interp in
    let response := prop "response" interp in
    if negb (truthy stateUpdates) || negb (truthy response)
    then Throw "Invalid interpretation structure"
    else
      let fields := match interp with JObj fs => fs | _ => [] end in
      let course := match stateUpdates with
                    | Some su => prop "course" su
                    | None => None
                    end in
      if notNull course then
        match formatNavalCourseAny course with
        | None =>
            Throw (match course with
                   | None => "Cannot read properties of undefined (reading 'toString')"
                   | Some (JObj _) => "course.toString is not a function"
                   | Some _ => "Cannot convert object to primitive value"
                   end)
        | Some spoken =>
            match response with
            | Some (JStr text) =>
                Ok (setField "response"
                      (JStr (replaceCourseRef ("course " ++ spoken) text)) fields)
            | _ => Throw "interpretation.response.replace is not a function"
            end
        end
      else Ok fields
  end.

(** The text handed to [JSON.parse] (lines 226-232). *)
Definition jsonText (rawResponse : string) : string :=
  match matchObjectSpan rawResponse with
  | Some span => span
  | None => rawResponse
  end.

(** The check made on each completion (lines 159-164 and 216-219). *)
Definition contentOf (stage : string) (c : Completion) : Result string :=
  match c with
  | ApiThrows m => Throw m
  | ApiReturns content =>
      if contentTruthy content then Ok (contentText content)
      else Throw ("No " ++ stage ++ " response generated")
  end.

(** Lines 221-237: any error of the extraction or of [JSON.parse] is
    rethrown with a message of the handler's own. *)
Definition parseInterpretation (C : Collaborators) (content : string) : Result json :=
  match JSON_parse C (jsonText (trim content)) with
  | Some interp => Ok interp
  | None => Throw "Invalid interpretation response format"
  end.

(** The inner [try] block of the handler (lines 98-261). *)
Definition processRequest (C : Collaborators) (command : json)
    (currentState : jsval) : Result json :=
  content <- contentOf "correction" (correction C command) ;;
  let correctedCommand := trim content in
  content' <- contentOf "interpretation"
                (interpretation C currentState correctedCommand) ;;
  interp <- parseInterpretation C content' ;;
  fields <- validateAndFormat interp ;;
  Ok (JObj (setField "correctedCommand" (JStr correctedCommand)
              (setField "originalCommand" command fields))).

(** Both completion calls return usable content and the second one parses
    to [interp]; [corrected] is the corrected command. *)
Definition interpretsAs (C : Collaborators) (command : json)
    (currentState : jsval) (corrected : string) (interp : json) : Prop :=
  exists c1 c2 : string,
    correction C command = ApiReturns (Some c1) /\ c1 <> EmptyString /\
    corrected = trim c1 /\
    interpretation C currentState corrected = ApiReturns (Some c2) /\
    c2 <> EmptyString /\
    JSON_parse C (jsonText (trim c2)) = Some interp.

(** [POST(request)].  [hasKey] tells whether [process.env.GROQ_API_KEY] is
    set; [requestBody] is the outcome of [request.json()], [None] when it
    rejects. *)
Definition POST (hasKey : bool) (C : Collaborators) (requestBody : option json)
  : HttpResponse :=
  if negb hasKey
  then errorResponse "Missing GROQ_API_KEY environment variable" 500
  else
    match requestBody with
    | None => errorResponse "Invalid request body" 400
    | Some JNull =>
        errorResponse
          "Internal server error: Cannot destructure property 'command' of 'body' as it is null."
          500
    | Some b =>
        let command := prop "command" b in
        let currentState := prop "currentState" b in
        match command with
        | Some cmd =>
            if truthy command then
              match processRequest C cmd currentState with
              | Ok reply => {| status := 200; body := reply |}
              | Throw m => errorResponse ("Failed to process command: " ++ m) 500
              end
            else errorResponse "Command is required" 400
        | None => errorResponse "Command is required" 400
        end
    end.

End Route.

(* ------------------------------------------------------------------ *)
(** ** src/components/NavalHelmInterface.tsx *)

Module Helm.
Import Js.

(** [NAVAL_PATTERNS.SPEED.AHEAD] and [NAVAL_PATTERNS.SPEED.ASTERN], in the
    order of the source. *)
Definition AHEAD : list (string * Z) :=
  [("emergency flank", 110); ("flank", 100); ("full", 90); ("standard", 75);
   ("two thirds", 67); ("half", 50); ("one third", 33); ("slow", 25);
   ("dead slow", 10); ("stop", 0)].

Definition ASTERN : list (string * Z) :=
  [("emergency full", -100); ("full", -75); ("half", -50); ("slow", -25);
   ("stop", 0)].

Definition getSpeedText (speed : Z) : string :=
  if 100 <=? speed then "FLANK"
  else if 90 <=? speed then "FULL"
  else if 75 <=? speed then "STANDARD"
  else if 67 <=? speed then "TWO THIRDS"
  else if 50 <=? speed then "HALF"
  else if 33 <=? speed then "ONE THIRD"
  else if 25 <=? speed then "SLOW"
  else if 10 <=? speed then "DEAD SLOW"
  else "STOP".

(** The bucket name shown by the engine telegraph for a numeric speed
    (lines 314-318); [None] at zero, where the order reads ALL STOP and no
    bucket is looked up. *)
Definition displayedBucket (speed : Z) : option string :=
  if 0 <? speed then Some (getSpeedText speed)
  else if speed <? 0 then Some (getSpeedText (Z.abs speed))
  else None.

(** The order line of the engine telegraph (lines 314-318) when the speed
    is a number, an integer of the embedding; [orderLine] below takes
    whatever value the state holds. *)
Definition engineOrder (speed : Z) : string :=
  if 0 <? speed then "ALL AHEAD " ++ getSpeedText speed
  else if speed <? 0 then "ALL ASTERN " ++ getSpeedText (Z.abs speed)
  else "ALL STOP".

Record ShipState : Type := { rudder : jsval; course : jsval; speed : jsval }.

Definition initialShipState : ShipState :=
  {| rudder := Some (JNum 0); course := Some (JNum 0); speed := Some (JNum 0) |}.

Record Toast : Type := { title : string; description : string }.

(** A text handed to one of the two speech channels. *)
Inductive Dispatch : Type :=
| ToElevenLabs (text : jsval)
| ToSpeechSynthesis (text : jsval) (voice : option string).

(** The state of the component, with the notifications raised and the
    texts handed to the speech channels so far (latest last). *)
Record UI : Type := {
  shipState : ShipState;
  isMuted : bool;
  lastCommand : json;
  commandLog : list json;
  screenResponse : jsval;
  processingCommand : bool;
  transcript : string;
  toasts : list Toast;
  dispatched : list Dispatch
}.

Definition initialUI : UI :=
  {| shipState := initialShipState; isMuted := false; lastCommand := JStr "";
     commandLog := []; screenResponse := Some (JStr "");
     processingCommand := false; transcript := ""; toasts := [];
     dispatched := [] |}.

Definition setShipState (v : ShipState) (ui : UI) : UI :=
  {| shipState := v; isMuted := isMuted ui; lastCommand := lastCommand ui;
     commandLog := commandLog ui; screenResponse := screenResponse ui;
     processingCommand := processingCommand ui; transcript := transcript ui;
     toasts := toasts ui; dispatched := dispatched ui |}.

Definition setLastCommand (v : json) (ui : UI) : UI :=
  {| shipState := shipState ui; isMuted := isMuted ui; lastCommand := v;
     commandLog := commandLog ui; screenResponse := screenResponse ui;
     processingCommand := processingCommand ui; transcript := transcript ui;
     toasts := toasts ui; dispatched := dispatched ui |}.

Definition setCommandLog (v : list json) (ui : UI) : UI :=
  {| shipState := shipState ui; isMuted := isMuted ui; lastCommand := lastCommand ui;
     commandLog := v; screenResponse := screenResponse ui;
     processingCommand := processingCommand ui; transcript := transcript ui;
     toasts := toasts ui; dispatched := dispatched ui |}.

Definition setScreenResponse (v : jsval) (ui : UI) : UI :=
  {| shipState := shipState ui; isMuted := isMuted ui; lastCommand := lastCommand ui;
     commandLog := commandLog ui; screenResponse := v;
     processingCommand := processingCommand ui; transcript := transcript ui;
     toasts := toasts ui; dispatched := dispatched ui |}.

Definition setProcessingCommand (v : bool) (ui : UI) : UI :=
  {| shipState := shipState ui; isMuted := isMuted ui; lastCommand := lastCommand ui;
     commandLog := commandLog ui; screenResponse := screenResponse ui;
     processingCommand := v; transcript := transcript ui;
     toasts := toasts ui; dispatched := dispatched ui |}.

Definition setTranscript (v : string) (ui : UI) : UI :=
  {| shipState := shipState ui; isMuted := isMuted ui; lastCommand := lastCommand ui;
     commandLog := commandLog ui; screenResponse := screenResponse ui;
     processingCommand := processingCommand ui; transcript := v;
     toasts := toasts ui; dispatched := dispatched ui |}.

(** [toast({ title, description, variant: "destructive" })] *)
Definition toast (t : Toast) (ui : UI) : UI :=
  {| shipState := shipState ui; isMuted := isMuted ui; lastCommand := lastCommand ui;
     commandLog := commandLog ui; screenResponse := screenResponse ui;
     processingCommand := processingCommand ui; transcript := transcript ui;
     toasts := toasts ui ++ [t]; dispatched := dispatched ui |}.

Definition dispatch (d : Dispatch) (ui : UI) : UI :=
  {| shipState := shipState ui; isMuted := isMuted ui; lastCommand := lastCommand ui;
     commandLog := commandLog ui; screenResponse := screenResponse ui;
     processingCommand := processingCommand ui; transcript := transcript ui;
     toasts := toasts ui; dispatched := dispatched ui ++ [d] |}.

(** A thrown or rejected value: an [Error] with its message, or something
    that is not an [Error] (the event passed to [audio.onerror]). *)
Inductive Thrown : Type :=
| ErrorObject (message : string)
| OtherValue.

(** How an awaited promise ends. *)
Inductive Settle : Type :=
| Resolved
| Rejected (e : Thrown)
| NeverSettles.

(** Outcome of the request to the speech service: [fetch] or
    [response.blob()] rejects, or a response with a status arrives and its
    body is read.  These are the outcomes in which the awaited promise
    settles: the source sets no timeout, and a request that is never
    answered is not listed. *)
Inductive TtsFetch : Type :=
| TtsRejects (message : string)
| TtsStatus (status : Z).

(** Outcome of [audio.play()] on the received audio: [onended] fires,
    [onerror] fires, or the promise returned by [play] rejects.  A playback
    that stalls with none of the three is not listed. *)
Inductive Playback : Type :=
| PlayEnded
| PlayErrorEvent
| PlayRejected (message : string).

(** Outcome of [speechSynthesis.speak]: the utterance's [end] event fires,
    or the synthesis fails and only its [error] event fires. *)
Inductive Utterance : Type :=
| UtteranceEnds
| UtteranceFails.

Record AudioEnv : Type := {
  ELEVENLABS_API_KEY : option string;
  ttsFetch : TtsFetch;
  playback : Playback;
  voices : list string;
  utterance : Utterance
}.

Definition keyConfigured (A : AudioEnv) : bool :=
  match ELEVENLABS_API_KEY A with
  | Some k => negb (String.eqb k EmptyString)
  | None => false
  end.

Definition audioErrorToast : Toast :=
  {| title := "Audio Error"; description := "Failed to play audio response" |}.

(** The predicate of [voices.find] (lines 150-154), on the voice's name. *)
Definition isPreferredVoice (name : string) : bool :=
  includes "Daniel" name || includes "Premium" name || includes "Natural" name.

(** [playAudioResponse(text)] (lines 98-172).  A promise built with
    [new Promise] and returned without [await] settles outside the [try]:
    its rejection does not reach the [catch]. *)
Definition playAudioResponse (A : AudioEnv) (text : jsval) (ui : UI) : UI * Settle :=
  if isMuted ui then (ui, Resolved)
  else if keyConfigured A then
    let ui1 := dispatch (ToElevenLabs text) ui in
    match ttsFetch A with
    | TtsRejects m => (toast audioErrorToast ui1, Rejected (ErrorObject m))
    | TtsStatus status =>
        if negb (isOk status)
        then (toast audioErrorToast ui1,
              Rejected (ErrorObject ("ElevenLabs API error: " ++ numToString status)))
        else match playback A with
             | PlayEnded => (ui1, Resolved)
             | PlayErrorEvent => (ui1, Rejected OtherValue)
             | PlayRejected m => (ui1, Rejected (ErrorObject m))
             end
    end
  else
    let preferredVoice := find isPreferredVoice (voices A) in
    let ui1 := dispatch (ToSpeechSynthesis text preferredVoice) ui in
    match utterance A with
    | UtteranceEnds => (ui1, Resolved)
    | UtteranceFails => (ui1, NeverSettles)
    end.

(** Outcome of [fetch('/api/process-command')] followed by
    [response.json()]: [fetch] rejects, or a response arrives with its
    status and the outcome of parsing its body.  A request left without
    reply, which would keep the call waiting as well, is not listed. *)
Inductive FetchOutcome : Type :=
| FetchRejects (message : string)
| FetchReplies (status : Z) (parsed : Result json).

(** Lines 208-218: the three guarded assignments on the copy of the
    state. *)
Definition merge (st : ShipState) (stateUpdates : json) : ShipState :=
  {| rudder := if notNull (prop "rudder" stateUpdates)
               then prop "rudder" stateUpdates else rudder st;
     course := if notNull (prop "course" stateUpdates)
               then prop "course" stateUpdates else course st;
     speed := if notNull (prop "speed" stateUpdates)
              then prop "speed" stateUpdates else speed st |}.

(** [[entry, ...prev].slice(0, 5)] *)
Definition pushLog (entry : json) (prev : list json) : list json :=
  firstn 5 (entry :: prev).

(** [result.correctedCommand || command] *)
Definition logEntry (result : json) (command : string) : json :=
  match prop "correctedCommand" result with
  | Some v => if truthy (Some v) then v else JStr command
  | None => JStr command
  end.

(** The message of [new Error(v)]. *)
Definition errorMessageOf (v : json) : string :=
  match toString v with
  | Some s => s
  | None => "Cannot convert object to primitive value"
  end.

(** Lines 203-223: what [processCommand] does with a reply that passed
    both checks.  The copy [{ ...shipState }] is taken from the state the
    callback closed over, which is the state at the call. *)
Definition applyResult (A : AudioEnv) (result : json) (command : string)
    (ui : UI) : UI * Settle :=
  let entry := logEntry result command in
  let ui1 := setLastCommand entry ui in
  let ui2 := setCommandLog (pushLog entry (commandLog ui1)) ui1 in
  let ui3 := match prop "stateUpdates" result with
             | Some su =>
                 if truthy (Some su)
                 then setShipState (merge (shipState ui) su) ui2
                 else ui2
             | None => ui2
             end in
  let ui4 := setScreenResponse (prop "response" result) ui3 in
  playAudioResponse A (prop "response" result) ui4.

(** The body of the [try] of [processCommand] (lines 179-223). *)
Definition tryBlock (A : AudioEnv) (net : FetchOutcome) (command : string)
    (ui : UI) : UI * Settle :=
  match net with
  | FetchRejects m => (ui, Rejected (ErrorObject m))
  | FetchReplies status parsed =>
      if negb (isOk status)
      then (ui, Rejected (ErrorObject "Failed to process command"))
      else
        match parsed with
        | Throw m => (ui, Rejected (ErrorObject m))
        | Ok JNull =>
            (ui, Rejected (ErrorObject "Cannot read properties of null (reading 'error')"))
        | Ok result =>
            match prop "error" result with
            | Some e =>
                if truthy (Some e)
                then (ui, Rejected (ErrorObject (errorMessageOf e)))
                else applyResult A result command ui
            | None => applyResult A result command ui
            end
        end
  end.

(** The notification raised by the [catch] of [processCommand]. *)
Definition commandErrorToast (e : Thrown) : Toast :=
  {| title := "Command Error";
     description := match e with
                    | ErrorObject m => m
                    | OtherValue => "Failed to process command"
                    end |}.

(** How a call of [processCommand] ends: its promise settles in a state,
    or it stays suspended at an [await] that never resumes. *)
Inductive Run : Type :=
| Settled (ui : UI)
| Suspended (ui : UI).

Definition stateOf (r : Run) : UI :=
  match r with Settled ui => ui | Suspended ui => ui end.

(** [processCommand(command)] (lines 174-235): the gate, then
    [try]/[catch]/[finally]. *)
Definition processCommand (A : AudioEnv) (net : FetchOutcome) (command : string)
    (ui : UI) : Run :=
  if processingCommand ui then Settled ui
  else
    match tryBlock A net command (setProcessingCommand true ui) with
    | (ui', Resolved) => Settled (setProcessingCommand false ui')
    | (ui', Rejected e) =>
        Settled (setProcessingCommand false (toast (commandErrorToast e) ui'))
    | (ui', NeverSettles) => Suspended ui'
    end.

(** The speech hook stores the text it recognised
    ([recognition.onresult] calls [setTranscript]). *)
Definition transcriptArrives (text : string) (ui : UI) : UI :=
  setTranscript text ui.

(** The effect on [transcript] (lines 238-248). *)
Definition transcriptEffect (A : AudioEnv) (net : FetchOutcome) (ui : UI) : Run :=
  if String.eqb (transcript ui) EmptyString || processingCommand ui
  then Settled ui
  else
    match processCommand A net (transcript ui) ui with
    | Settled ui' => Settled (setTranscript EmptyString ui')
    | Suspended ui' => Suspended ui'
    end.

(** [getCardinalDirection(degrees)] (lines 460-465) on a bearing that is
    a number, as it is where the function is called: line 395 has called
    [toFixed] on the same value.  The quotient is the division of doubles,
    rounded as a double before [Math.round] sees it.  [%] keeps the sign of
    its left operand and is exact; an index below zero, or [NaN], reads
    [undefined]. *)
Definition directions : list string :=
  ["N"; "NNE"; "NE"; "ENE"; "E"; "ESE"; "SE"; "SSE";
   "S"; "SSW"; "SW"; "WSW"; "W"; "WNW"; "NW"; "NNW"].

Definition getCardinalDirection (degrees : Z) : option string :=
  match Math_round (divDouble (toDouble degrees) (binary_normalize 53 1024 45 (-1) false)) with
  | Some rounded =>
      let index := Z.rem rounded 16 in
      if index <? 0 then None else nth_error directions (Z.to_nat index)
  | None => None
  end.

(** [getSpeedText(speed)] on the double its argument is compared as. *)
Definition getSpeedTextOf (speed : spec_float) : string :=
  if SFleb (toDouble 100) speed then "FLANK"
  else if SFleb (toDouble 90) speed then "FULL"
  else if SFleb (toDouble 75) speed then "STANDARD"
  else if SFleb (toDouble 67) speed then "TWO THIRDS"
  else if SFleb (toDouble 50) speed then "HALF"
  else if SFleb (toDouble 33) speed then "ONE THIRD"
  else if SFleb (toDouble 25) speed then "SLOW"
  else if SFleb (toDouble 10) speed then "DEAD SLOW"
  else "STOP".

(** The order line of the engine telegraph (lines 314-318) for whatever
    [shipState.speed] holds; [None] when converting the value throws.  A
    value that is neither above nor below zero, [NaN] included, shows ALL
    STOP. *)
Definition orderLine (numberOfText : string -> spec_float) (speed : jsval)
  : option string :=
  match toNumber numberOfText speed with
  | None => None
  | Some x =>
      Some (if SFltb (S754_zero false) x then "ALL AHEAD " ++ getSpeedTextOf x
            else if SFltb x (S754_zero false)
                 then "ALL ASTERN " ++ getSpeedTextOf (SFabs x)
                 else "ALL STOP")
  end.



(** One recognised text from the speech hook to the end of the effect it
    triggers, and a session of such texts, each with the replies its
    command meets. *)
Definition hear (A : AudioEnv) (net : FetchOutcome) (text : string) (ui : UI) : UI :=
  stateOf (transcriptEffect A net (transcriptArrives text ui)).

Fixpoint session (steps : list (AudioEnv * FetchOutcome * string)) (ui : UI) : UI :=
  match steps with
  | [] => ui
  | (A, net, text) :: rest => session rest (hear A net text ui)
  end.

(** What every session keeps about the log and the last command. *)
Definition logInvariant (ui : UI) : Prop :=
  (length (commandLog ui) <= 5)%nat /\
  Forall (fun entry => truthy (Some entry) = true) (commandLog ui) /\
  ((commandLog ui = [] /\ lastCommand ui = JStr EmptyString) \/
   hd_error (commandLog ui) = Some (lastCommand ui)).

End Helm.

(* ------------------------------------------------------------------ *)
(** ** The component talking to the route *)

Module Pipeline.
Import Js.

(** [JSON.stringify({ command, currentState: shipState })] as the route
    parses it back: a field holding [undefined] is left out. *)
Definition currentStateJson (st : Helm.ShipState) : json :=
  JObj (match Helm.rudder st with Some v => [("rudder", v)] | None => [] end ++
        match Helm.course st with Some v => [("course", v)] | None => [] end ++
        match Helm.speed st with Some v => [("speed", v)] | None => [] end).

Definition requestBody (command : string) (st : Helm.ShipState) : json :=
  JObj [("command", JStr command); ("currentState", currentStateJson st)].

(** The reply of the route as the component's [fetch] sees it. *)
Definition submit (hasKey : bool) (C : Route.Collaborators) (command : string)
    (st : Helm.ShipState) : Helm.FetchOutcome :=
  let r := Route.POST hasKey C (Some (requestBody command st)) in
  Helm.FetchReplies (Route.status r) (Ok (Route.body r)).

(** One command through the whole pipeline. *)
Definition handleCommand (hasKey : bool) (C : Route.Collaborators)
    (A : Helm.AudioEnv) (command : string) (ui : Helm.UI) : Helm.Run :=
  Helm.processCommand A (submit hasKey C command (Helm.shipState ui)) command ui.

End Pipeline.

(* ------------------------------------------------------------------ *)
(** ** The specification's wording, for comparison with the code *)

Module Spec.
Import Js.

(** The name in [table] whose threshold (taken in absolute value) is the
    highest one not above [a]. *)
Fixpoint pickBucket (table : list (string * Z)) (a : Z)
    (best : option (string * Z)) : option (string * Z) :=
  match table with
  | [] => best
  | (name, v) :: rest =>
      let t := Z.abs v in
      pickBucket rest a
        (if t <=? a
         then match best with
              | Some (_, b) => if b <? t then Some (name, t) else best
              | None => Some (name, t)
              end
         else best)
  end.

(** The bucket name of a speed percent: ahead table for a positive speed,
    astern table for a negative one, searched with the absolute value. *)
Definition speedBucketName (p : Z) : option string :=
  option_map fst
    (pickBucket (if p <? 0 then Helm.ASTERN else Helm.AHEAD) (Z.abs p) None).

(** The name of the ahead table for the absolute value of a speed. *)
Definition aheadBucketName (p : Z) : option string :=
  option_map fst (pickBucket Helm.AHEAD (Z.abs p) None).

(** Every 3-digit course reference of a confirmation rewritten with the
    pronunciation of its own digits. *)
Fixpoint pronounceCourseRefsFrom (skip : nat) (s : string) : string :=
  match s with
  | EmptyString => EmptyString
  | String c rest =>
      match skip with
      | S k => pronounceCourseRefsFrom k rest
      | O =>
          if Route.courseRefAt s
          then "course " ++ Route.pronounceDigits (takeChars 3 (dropChars 7 s)) ++
               pronounceCourseRefsFrom 9 rest
          else String c (pronounceCourseRefsFrom 0 rest)
      end
  end.

Definition pronounceAllCourseRefs (s : string) : string :=
  pronounceCourseRefsFrom 0 s.

(** The delta of the data model: each field a number or absent.  On the
    wire an absent field is an explicit [null] (the format the route asks
    the interpreter for: rudder, course, speed, each a number or null). *)
Record StateDelta : Type := {
  dRudder : option Z;
  dCourse : option Z;
  dSpeed : option Z
}.

Definition fieldJson (f : option Z) : json :=
  match f with
  | Some n => JNum n
  | None => JNull
  end.

Definition deltaJson (d : StateDelta) : json :=
  JObj [("rudder", fieldJson (dRudder d)); ("course", fieldJson (dCourse d));
        ("speed", fieldJson (dSpeed d))].

(** Position of the leftmost 3-digit course reference of a text. *)
Fixpoint firstCourseRef (s : string) : option nat :=
  if Route.courseRefAt s then Some O
  else match s with
       | EmptyString => None
       | String _ rest => option_map S (firstCourseRef rest)
       end.

(** The text with its leftmost course reference, if any, replaced by
    [replacement]; what precedes and what follows is kept. *)
Definition rewriteFirstCourseRef (replacement text : string) : string :=
  match firstCourseRef text with
  | Some i => takeChars i text ++ replacement ++ dropChars (i + 10) text
  | None => text
  end.

(** The naval word of a digit, and a course spelled with the words of its
    hundreds, tens and units. *)
Definition navalWord (d : Z) : string :=
  nth (Z.to_nat d)
      ["zero"; "one"; "two"; "three"; "four"; "five"; "six"; "seven"; "eight";
       "niner"]
      EmptyString.

Definition spokenByDigits (c : Z) : string :=
  navalWord (c / 100) ++ " " ++ navalWord (c / 10 mod 10) ++ " " ++
  navalWord (c mod 10).

(** Decision procedures run over the finite ranges of course and speed. *)
Definition tableHas (d : Z) : bool :=
  match Route.NAVAL_NUMBERS (Some d) with
  | Some w => String.eqb w (navalWord d)
  | None => false
  end.

Definition formatterAgrees (n : nat) : bool :=
  let c := Z.of_nat n in
  String.eqb (Route.formatNavalCourse c) (spokenByDigits c) &&
  tableHas (c / 100) && tableHas (c / 10 mod 10) && tableHas (c mod 10).

(** The compass point nearest to a bearing, computed in quarter degrees
    with integers: point [k] stands at [90 * k], and a bearing belongs to
    it from 45 below up to, but not including, 45 above. *)
Definition nearestPoint (d : Z) : option string :=
  nth_error Helm.directions (Z.to_nat (((4 * d + 45) / 90) mod 16)).


Definition compassUndefined (n : nat) : bool :=
  match Helm.getCardinalDirection (- Z.of_nat n) with
  | None => true
  | Some _ => false
  end.

(** The order line computed on doubles against the one computed on
    integers, at [n - 1000]. *)
Definition orderLineAgrees (n : nat) : bool :=
  let s := Z.of_nat n - 1000 in
  match Helm.orderLine (fun _ => S754_nan) (Some (JNum s)) with
  | Some line => String.eqb line (Helm.engineOrder s)
  | None => false
  end.

Definition onAheadLadder (n : nat) : bool :=
  match aheadBucketName (Z.of_nat n) with
  | Some name => String.eqb (Helm.getSpeedText (Z.of_nat n)) (toUpperCase name)
  | None => false
  end.

(** An interpreter reply in the format the route asks for. *)
Definition interpreterReply (d : StateDelta) (confirmation : string) : json :=
  JObj [("stateUpdates", deltaJson d); ("response", JStr confirmation)].

(** The names of [getSpeedText] from the slowest to the fastest, and the
    place of a name among them. *)
Definition ladder : list string :=
  ["STOP"; "DEAD SLOW"; "SLOW"; "ONE THIRD"; "HALF"; "TWO THIRDS"; "STANDARD";
   "FULL"; "FLANK"].

Fixpoint placeIn (names : list string) (name : string) : nat :=
  match names with
  | [] => O
  | n :: rest => if String.eqb n name then O else S (placeIn rest name)
  end.

Definition rankOf (name : string) : nat := placeIn ladder name.

(** Reading a pronunciation back: the digit of a word, and the number
    spelled by words separated by single spaces. *)
Definition digitOfWord (w : string) : option Z :=
  if String.eqb w "zero" then Some 0
  else if String.eqb w "one" then Some 1
  else if String.eqb w "two" then Some 2
  else if String.eqb w "three" then Some 3
  else if String.eqb w "four" then Some 4
  else if String.eqb w "five" then Some 5
  else if String.eqb w "six" then Some 6
  else if String.eqb w "seven" then Some 7
  else if String.eqb w "eight" then Some 8
  else if String.eqb w "niner" then Some 9
  else None.

Fixpoint readWords (acc : Z) (word s : string) : option Z :=
  match s with
  | EmptyString => option_map (fun d => 10 * acc + d) (digitOfWord word)
  | String c rest =>
      if Ascii.eqb c " "
      then match digitOfWord word with
           | Some d => readWords (10 * acc + d) EmptyString rest
           | None => None
           end
      else readWords acc (word ++ String c EmptyString) rest
  end.

Definition courseOfWords (s : string) : option Z := readWords 0 EmptyString s.

(** A pronunciation with a word missing: it begins with the separator or
    has two separators in a row. *)
Definition hasEmptyWord (s : string) : bool :=
  startsWith " " s || includes "  " s.

Definition speedInRange (s : Z) : bool := (-100 <=? s) && (s <=? 110).
Definition courseInRange (c : Z) : bool := (0 <=? c) && (c <=? 359).

End Spec.

(* ------------------------------------------------------------------ *)
(** ** Scripted collaborators, for running the pipeline on an example *)

Module Demo.
Import Js.

Definition dq : string := String (ascii_of_nat 34) EmptyString.

(** JSON text of a value whose strings need no escaping. *)
Fixpoint stringify (v : json) : string :=
  match v with
  | JNull => "null"
  | JBool true => "true"
  | JBool false => "false"
  | JNum n => numToString n
  | JStr s => dq ++ s ++ dq
  | JArr items =>
      "[" ++
      (fix items_text (l : list json) : string :=
         match l with
         | [] => EmptyString
         | x :: rest =>
             stringify x ++
             match rest with [] => EmptyString | _ => "," ++ items_text rest end
         end) items ++ "]"
  | JObj fields =>
      "{" ++
      (fix fields_text (l : list (string * json)) : string :=
         match l with
         | [] => EmptyString
         | (k, x) :: rest =>
             dq ++ k ++ dq ++ ":" ++ stringify x ++
             match rest with [] => EmptyString | _ => "," ++ fields_text rest end
         end) fields ++ "}"
  end.

(** A completion service that answers the correction request with
    [correctedText] and the interpretation request with the JSON text of
    [interp], and a parser that reads that text back. *)
Definition scripted (correctedText : string) (interp : json) : Route.Collaborators :=
  {| Route.correction := fun _ => Route.ApiReturns (Some correctedText);
     Route.interpretation := fun _ _ => Route.ApiReturns (Some (stringify interp));
     Route.JSON_parse :=
       fun text => if String.eqb text (stringify interp) then Some interp else None |}.

(** Speech through the on-device channel, which completes. *)
Definition onDevice : Helm.AudioEnv :=
  {| Helm.ELEVENLABS_API_KEY := None; Helm.ttsFetch := Helm.TtsStatus 200;
     Helm.playback := Helm.PlayEnded;
     Helm.voices := ["Alex"; "Daniel (Enhanced)"; "Samantha"];
     Helm.utterance := Helm.UtteranceEnds |}.

(** Speech through the on-device channel, with an utterance that fails. *)
Definition onDeviceFailing : Helm.AudioEnv :=
  {| Helm.ELEVENLABS_API_KEY := None; Helm.ttsFetch := Helm.TtsStatus 200;
     Helm.playback := Helm.PlayEnded;
     Helm.voices := ["Alex"; "Daniel (Enhanced)"; "Samantha"];
     Helm.utterance := Helm.UtteranceFails |}.

(** The request the component sends for [command] from its initial
    state. *)
Definition requestOf (command : string) : option json :=
  Some (Pipeline.requestBody command Helm.initialShipState).

(** A service that corrects to a rudder order and interprets it. *)
Definition left20 : Route.Collaborators :=
  scripted "Helm, left 20 degrees rudder"
    (Spec.interpreterReply
       {| Spec.dRudder := Some (-20); Spec.dCourse := None; Spec.dSpeed := None |}
       "left 20 degrees rudder, aye aye").

(** The same reply when the route answers 200. *)
Definition left20Reply : json :=
  JObj [("stateUpdates", Spec.deltaJson
           {| Spec.dRudder := Some (-20); Spec.dCourse := None; Spec.dSpeed := None |});
        ("response", JStr "left 20 degrees rudder, aye aye");
        ("originalCommand", JStr "helm love 20");
        ("correctedCommand", JStr "Helm, left 20 degrees rudder")].

(** Speech through the speech service, which answers with [status]. *)
Definition viaService (status : Z) : Helm.AudioEnv :=
  {| Helm.ELEVENLABS_API_KEY := Some "configured-key";
     Helm.ttsFetch := Helm.TtsStatus status;
     Helm.playback := Helm.PlayEnded;
     Helm.voices := ["Alex"; "Daniel (Enhanced)"];
     Helm.utterance := Helm.UtteranceEnds |}.

End Demo.

(* ================================================================== *)
(** * Properties *)

Import Js.

(** ** The course formatter *)

Lemma formatNavalCourse_table : forallb Spec.formatterAgrees (seq 0 360) = true.
Proof. vm_compute. reflexivity. Qed.

Lemma tableHas_word (d : Z) :
  Spec.tableHas d = true -> Route.NAVAL_NUMBERS (Some d) = Some (Spec.navalWord d).
Proof.
  unfold Spec.tableHas.
  destruct (Route.NAVAL_NUMBERS (Some d)) as [w|]; [|discriminate].
  intros H. apply String.eqb_eq in H. now subst w.
Qed.

(** C7. For every integer course [c] in [0, 359], [formatNavalCourse c] is
    three pronunciation words joined by single spaces: the words of the
    hundreds, tens and units digit of [c] padded to three digits, where the
    words of the digits 0 to 9 are zero, one, two, three, four, five, six,
    seven, eight and niner, and these are the words the table
    [NAVAL_NUMBERS] holds. *)
Theorem formatNavalCourse_three_words (c : Z) :
  0 <= c <= 359 ->
  let word (d : Z) : string :=
    nth (Z.to_nat d)
        ["zero"; "one"; "two"; "three"; "four"; "five"; "six"; "seven";
         "eight"; "niner"]
        EmptyString in
  Route.formatNavalCourse c =
    word (c / 100) ++ " " ++ word (c / 10 mod 10) ++ " " ++ word (c mod 10) /\
  Route.NAVAL_NUMBERS (Some (c / 100)) = Some (word (c / 100)) /\
  Route.NAVAL_NUMBERS (Some (c / 10 mod 10)) = Some (word (c / 10 mod 10)) /\
  Route.NAVAL_NUMBERS (Some (c mod 10)) = Some (word (c mod 10)).
Proof.
  intros Hc word.
  change (Route.formatNavalCourse c = Spec.spokenByDigits c /\
          Route.NAVAL_NUMBERS (Some (c / 100)) = Some (Spec.navalWord (c / 100)) /\
          Route.NAVAL_NUMBERS (Some (c / 10 mod 10))
            = Some (Spec.navalWord (c / 10 mod 10)) /\
          Route.NAVAL_NUMBERS (Some (c mod 10)) = Some (Spec.navalWord (c mod 10))).
  clear word.
  assert (Hin : In (Z.to_nat c) (seq 0 360)) by (apply in_seq; lia).
  pose proof (proj1 (forallb_forall Spec.formatterAgrees (seq 0 360)) formatNavalCourse_table
                _ Hin) as Hok.
  unfold Spec.formatterAgrees in Hok. cbv zeta in Hok.
  rewrite Z2Nat.id in Hok by lia.
  apply andb_prop in Hok. destruct Hok as [Hok H0].
  apply andb_prop in Hok. destruct Hok as [Hok H1].
  apply andb_prop in Hok. destruct Hok as [Hok H2].
  apply String.eqb_eq in Hok.
  split; [exact Hok|].
  split; [now apply tableHas_word|].
  split; now apply tableHas_word.
Qed.

Lemma formatNavalCourse_three_words_at_180 :
  0 <= 180 <= 359 /\
  Route.formatNavalCourse 180 = "one eight zero" /\
  Route.NAVAL_NUMBERS (Some 1) = Some "one" /\
  Route.NAVAL_NUMBERS (Some 8) = Some "eight" /\
  Route.NAVAL_NUMBERS (Some 0) = Some "zero".
Proof.
  split; [lia | exact (formatNavalCourse_three_words 180 ltac:(lia))].
Defined.

Example formatNavalCourse_9 : Route.formatNavalCourse 9 = "zero zero niner".
Proof. reflexivity. Qed.

Example formatNavalCourse_180 : Route.formatNavalCourse 180 = "one eight zero".
Proof. reflexivity. Qed.

Example formatNavalCourse_090 : Route.formatNavalCourse 90 = "zero niner zero".
Proof. reflexivity. Qed.

(** ** The speed bucket shown by the engine telegraph *)

Lemma getSpeedText_table : forallb Spec.onAheadLadder (seq 0 110) = true.
Proof. vm_compute. reflexivity. Qed.

(** X24. Below 110 in absolute value the telegraph shows, for both
    directions, the upper-cased name of the ahead table for the absolute
    value. *)
Lemma displayedBucket_ahead_ladder (p : Z) :
  -109 <= p <= 109 -> p <> 0 ->
  Helm.displayedBucket p = option_map toUpperCase (Spec.aheadBucketName p).
Proof.
  intros Hp Hnz.
  assert (Hin : In (Z.to_nat (Z.abs p)) (seq 0 110)) by (apply in_seq; lia).
  pose proof (proj1 (forallb_forall Spec.onAheadLadder (seq 0 110)) getSpeedText_table
                _ Hin) as Hok.
  unfold Spec.onAheadLadder in Hok. rewrite Z2Nat.id in Hok by lia.
  unfold Spec.aheadBucketName in *. rewrite Z.abs_idemp in Hok.
  destruct (Spec.pickBucket Helm.AHEAD (Z.abs p) None) as [[name t]|];
    [|discriminate].
  simpl in *. apply String.eqb_eq in Hok.
  unfold Helm.displayedBucket.
  destruct (0 <? p) eqn:Hpos.
  - apply Z.ltb_lt in Hpos. rewrite Z.abs_eq in Hok by lia. now rewrite Hok.
  - apply Z.ltb_ge in Hpos.
    assert (Hneg : (p <? 0) = true) by (apply Z.ltb_lt; lia).
    rewrite Hneg. now rewrite Hok.
Qed.

(** C6. The telegraph at the two speeds the vocabulary names explicitly:
    110 is shown as FLANK where the ahead table says emergency flank, and
    -75 is shown as STANDARD where the astern table says full. *)
Theorem displayedBucket_departs_from_tables :
  Helm.displayedBucket 110 = Some "FLANK" /\
  Spec.speedBucketName 110 = Some "emergency flank" /\
  Helm.displayedBucket (-75) = Some "STANDARD" /\
  Spec.speedBucketName (-75) = Some "full" /\
  Helm.engineOrder 110 = "ALL AHEAD FLANK" /\
  Helm.engineOrder (-75) = "ALL ASTERN STANDARD".
Proof. repeat split. Qed.

(** ** Merging a delta into the ship's state *)

(** When every field a delta does not carry is written as an explicit
    [null], merging replaces exactly the fields the delta carries and keeps
    the others; an explicit zero is a value, not an absence; a delta with
    nothing in it gives back the state it was merged into; a delta with a
    rudder only leaves course and speed as they were. *)
Lemma merge_replaces_present_retains_absent
    (st : Helm.ShipState) (d : Spec.StateDelta) :
  let merged (d' : Spec.StateDelta) := Helm.merge st (Spec.deltaJson d') in
  Helm.rudder (merged d) =
    match Spec.dRudder d with Some r => Some (JNum r) | None => Helm.rudder st end /\
  Helm.course (merged d) =
    match Spec.dCourse d with Some c => Some (JNum c) | None => Helm.course st end /\
  Helm.speed (merged d) =
    match Spec.dSpeed d with Some s => Some (JNum s) | None => Helm.speed st end /\
  merged {| Spec.dRudder := None; Spec.dCourse := None; Spec.dSpeed := None |} = st /\
  Helm.rudder
    (merged {| Spec.dRudder := Some 0; Spec.dCourse := None; Spec.dSpeed := None |})
    = Some (JNum 0) /\
  forall r : Z,
    let st' := merged {| Spec.dRudder := Some r; Spec.dCourse := None;
                         Spec.dSpeed := None |} in
    Helm.rudder st' = Some (JNum r) /\
    Helm.course st' = Helm.course st /\ Helm.speed st' = Helm.speed st.
Proof.
  destruct st as [r0 c0 s0], d as [[r|] [c|] [s|]]; cbn; repeat split.
Qed.

(** A key left out of [stateUpdates] is not an absent field for the code:
    it reads [undefined], which differs from [null], and is stored. *)
Lemma merge_omitted_key_stores_undefined (st : Helm.ShipState) :
  Helm.rudder (Helm.merge st (JObj [("course", JNull); ("speed", JNull)]))
    = undefined.
Proof. reflexivity. Qed.

(** C2. A delta that leaves a field out, instead of writing it as [null],
    does not retain that field.  The ship makes 50 on course 090, rudder
    amidships; the interpreter answers a rudder order with a delta that
    carries the rudder, a null course and no speed key.  The route answers
    200 and passes the delta on as it is; the component stores the rudder,
    keeps the course, and overwrites the speed with [undefined]: the
    comparison with [null] of lines 210-218 does not hold an absent key
    back. *)
Theorem left_out_key_erases_the_field :
  let underway := {| Helm.rudder := Some (JNum 0); Helm.course := Some (JNum 90);
                     Helm.speed := Some (JNum 50) |} in
  let delta := JObj [("rudder", JNum (-20)); ("course", JNull)] in
  let C := Demo.scripted "Helm, left 20 degrees rudder"
             (JObj [("stateUpdates", delta);
                    ("response", JStr "left 20 degrees rudder, aye aye")]) in
  let net := Pipeline.submit true C "helm love 20" underway in
  let ui := Helm.setShipState underway Helm.initialUI in
  (exists body : json,
     net = Helm.FetchReplies 200 (Ok body) /\
     prop "stateUpdates" body = Some delta) /\
  exists ui' : Helm.UI,
    Helm.processCommand Demo.onDevice net "helm love 20" ui = Helm.Settled ui' /\
    Helm.shipState ui' =
      {| Helm.rudder := Some (JNum (-20)); Helm.course := Some (JNum 90);
         Helm.speed := undefined |} /\
    Helm.commandLog ui' = [JStr "Helm, left 20 degrees rudder"] /\
    Helm.toasts ui' = [] /\
    Helm.speed (Helm.merge underway delta) = undefined /\
    Helm.speed
      (Helm.merge underway
         (JObj [("rudder", JNum (-20)); ("course", JNull); ("speed", JNull)]))
      = Some (JNum 50).
Proof.
  cbv zeta. split.
  - eexists. split; reflexivity.
  - eexists. repeat split; reflexivity.
Qed.

(** ** The route: from the interpreter's reply to the HTTP response *)

Lemma nonempty_eqb (s : string) : s <> EmptyString -> String.eqb s EmptyString = false.
Proof. intros H. now apply String.eqb_neq. Qed.

Lemma processRequest_interpreted
    (C : Route.Collaborators) (command : json) (cs : jsval)
    (corrected : string) (interp : json) :
  Route.interpretsAs C command cs corrected interp ->
  Route.processRequest C command cs =
    match Route.validateAndFormat interp with
    | Throw m => Throw m
    | Ok fields =>
        Ok (JObj (setField "correctedCommand" (JStr corrected)
                    (setField "originalCommand" command fields)))
    end.
Proof.
  intros (c1 & c2 & Hc & Hne1 & Hcorr & Hi & Hne2 & Hp).
  unfold Route.processRequest, Route.contentOf, Route.parseInterpretation.
  rewrite Hc. cbn [Route.contentTruthy Route.contentText].
  rewrite (nonempty_eqb _ Hne1). cbn [negb bind]. rewrite <- Hcorr, Hi.
  cbn [Route.contentTruthy Route.contentText]. rewrite (nonempty_eqb _ Hne2).
  cbn [negb bind]. rewrite Hp. cbn [bind].
  now destruct (Route.validateAndFormat interp).
Qed.

Lemma POST_interpreted
    (C : Route.Collaborators) (b cmd : json) (corrected : string) (interp : json) :
  b <> JNull -> prop "command" b = Some cmd -> truthy (Some cmd) = true ->
  Route.interpretsAs C cmd (prop "currentState" b) corrected interp ->
  Route.POST true C (Some b) =
    match Route.validateAndFormat interp with
    | Throw m => Route.errorResponse ("Failed to process command: " ++ m) 500
    | Ok fields =>
        {| Route.status := 200;
           Route.body :=
             JObj (setField "correctedCommand" (JStr corrected)
                     (setField "originalCommand" cmd fields)) |}
    end.
Proof.
  intros Hb Hcmd Ht Hi.
  unfold Route.POST. cbn [negb].
  destruct b; try congruence; rewrite Hcmd, Ht;
    rewrite (processRequest_interpreted _ _ _ _ _ Hi);
    now destruct (Route.validateAndFormat interp).
Qed.

(** Every answer of the route other than a 200 is an error reply: its
    status is outside 2xx and its body is an [error] with a non-empty
    message and nothing else. *)
Lemma POST_failure_is_error_reply
    (hasKey : bool) (C : Route.Collaborators) (requestBody : option json) :
  let r := Route.POST hasKey C requestBody in
  Route.status r = 200 \/
  (isOk (Route.status r) = false /\
   exists m : string, m <> EmptyString /\ Route.body r = JObj [("error", JStr m)]).
Proof.
  unfold Route.POST.
  destruct hasKey; cbn [negb];
    [| right; split; [reflexivity | eexists; split; [|reflexivity]; discriminate]].
  destruct requestBody as [b|];
    [| right; split; [reflexivity | eexists; split; [|reflexivity]; discriminate]].
  assert (Herr : forall m code, (code = 400 \/ code = 500) -> m <> EmptyString ->
            let r := Route.errorResponse m code in
            Route.status r = 200 \/
            (isOk (Route.status r) = false /\
             exists m', m' <> EmptyString /\ Route.body r = JObj [("error", JStr m')])).
  { intros m code Hcode Hm. right. split.
    - destruct Hcode; subst; reflexivity.
    - exists m. now split. }
  destruct b; try (apply Herr; [auto | discriminate]);
    try (destruct (prop "command" _) as [cmd|];
         [destruct (truthy (Some cmd));
          [destruct (Route.processRequest _ _ _);
           [left; reflexivity | apply Herr; [auto | discriminate]]
          | apply Herr; [auto | discriminate]]
         | apply Herr; [auto | discriminate]]).
Qed.


Ltac scripted_interprets :=
  eexists _, _; repeat split; try reflexivity; try (vm_compute; discriminate).


(** ** The course reference of the confirmation *)

Lemma replaceCourseRef_unfold (r s : string) :
  Route.replaceCourseRef r s =
    if Route.courseRefAt s then r ++ dropChars 10 s
    else match s with
         | EmptyString => EmptyString
         | String c rest => String c (Route.replaceCourseRef r rest)
         end.
Proof. destruct s; reflexivity. Qed.

Lemma firstCourseRef_unfold (s : string) :
  Spec.firstCourseRef s =
    if Route.courseRefAt s then Some O
    else match s with
         | EmptyString => None
         | String _ rest => option_map S (Spec.firstCourseRef rest)
         end.
Proof. destruct s; reflexivity. Qed.

(** The replacement done by the code is the rewriting of the leftmost
    reference and of nothing else. *)
Lemma replaceCourseRef_leftmost (r s : string) :
  Route.replaceCourseRef r s = Spec.rewriteFirstCourseRef r s.
Proof.
  unfold Spec.rewriteFirstCourseRef.
  induction s as [|c rest IH].
  - reflexivity.
  - rewrite replaceCourseRef_unfold, firstCourseRef_unfold.
    destruct (Route.courseRefAt (String c rest)).
    + reflexivity.
    + rewrite IH. destruct (Spec.firstCourseRef rest) as [i|]; reflexivity.
Qed.

(** C8 (as the code has it). When the route answers a reply of the
    interpreter, the confirmation it sends back is the interpreter's
    confirmation with its leftmost 3-digit course reference replaced by the
    word course and the pronunciation of the course of the delta; the text
    before and after that reference is passed on as it is.  When the delta
    has no course the confirmation is passed on unchanged. *)
Theorem confirmation_course_rewritten_once
    (C : Route.Collaborators) (b cmd : json) (corrected : string)
    (d : Spec.StateDelta) (text : string) :
  b <> JNull -> prop "command" b = Some cmd -> truthy (Some cmd) = true ->
  text <> EmptyString ->
  Route.interpretsAs C cmd (prop "currentState" b) corrected
    (Spec.interpreterReply d text) ->
  let r := Route.POST true C (Some b) in
  Route.status r = 200 /\
  prop "response" (Route.body r) =
    Some (JStr (match Spec.dCourse d with
                | Some c =>
                    Spec.rewriteFirstCourseRef
                      ("course " ++ Route.formatNavalCourse c) text
                | None => text
                end)).
Proof.
  intros Hb Hcmd Ht Htext Hi r. subst r.
  rewrite (POST_interpreted _ _ _ _ _ Hb Hcmd Ht Hi).
  unfold Route.validateAndFormat, Spec.interpreterReply.
  cbn [prop lookup String.eqb Ascii.eqb Bool.eqb truthy negb orb].
  rewrite (nonempty_eqb _ Htext). cbn [negb orb].
  destruct d as [rd [c|] sd]; cbn [Spec.dCourse Spec.deltaJson Spec.fieldJson
    prop lookup String.eqb Ascii.eqb Bool.eqb notNull Route.formatNavalCourseAny
    toString option_map].
  - rewrite replaceCourseRef_leftmost. split; reflexivity.
  - split; reflexivity.
Qed.

Lemma confirmation_course_rewritten_once_witness :
  let r := Route.POST true
             (Demo.scripted "Helm, steady on course zero niner zero"
                (Spec.interpreterReply
                   {| Spec.dRudder := None; Spec.dCourse := Some 90;
                      Spec.dSpeed := None |}
                   "steady on course 090, aye aye"))
             (Some (Pipeline.requestBody "study on 090" Helm.initialShipState)) in
  Route.status r = 200 /\
  prop "response" (Route.body r) =
    Some (JStr "steady on course zero niner zero, aye aye").
Proof.
  exact (confirmation_course_rewritten_once
           (Demo.scripted "Helm, steady on course zero niner zero"
              (Spec.interpreterReply
                 {| Spec.dRudder := None; Spec.dCourse := Some 90;
                    Spec.dSpeed := None |}
                 "steady on course 090, aye aye"))
           (Pipeline.requestBody "study on 090" Helm.initialShipState)
           (JStr "study on 090")
           "Helm, steady on course zero niner zero"
           {| Spec.dRudder := None; Spec.dCourse := Some 90; Spec.dSpeed := None |}
           "steady on course 090, aye aye"
           ltac:(discriminate) eq_refl eq_refl ltac:(discriminate)
           ltac:(scripted_interprets)).
Defined.

(** C8 (as stated) fails: of two course references in a confirmation the
    second one keeps its digits. *)
Lemma later_course_reference_keeps_its_digits :
  let text := "steady on course 090, then come to course 180" in
  let r := Route.POST true
             (Demo.scripted "Helm, steady on course zero niner zero"
                (Spec.interpreterReply
                   {| Spec.dRudder := None; Spec.dCourse := Some 90;
                      Spec.dSpeed := None |}
                   text))
             (Some (Pipeline.requestBody "study on 090" Helm.initialShipState)) in
  Route.status r = 200 /\
  prop "response" (Route.body r) =
    Some (JStr "steady on course zero niner zero, then come to course 180") /\
  Spec.pronounceAllCourseRefs text =
    "steady on course zero niner zero, then come to course one eight zero" /\
  prop "response" (Route.body r) <> Some (JStr (Spec.pronounceAllCourseRefs text)).
Proof.
  vm_compute. repeat split. discriminate.
Qed.

(** With no course in the delta, a course reference of the confirmation is
    not rewritten at all. *)
Lemma course_reference_untouched_without_course :
  let r := Route.POST true
             (Demo.scripted "Helm, left 20 degrees rudder"
                (Spec.interpreterReply
                   {| Spec.dRudder := Some (-20); Spec.dCourse := None;
                      Spec.dSpeed := None |}
                   "left 20 degrees rudder, passing course 090, aye"))
             (Some (Pipeline.requestBody "helm left 20" Helm.initialShipState)) in
  prop "response" (Route.body r) =
    Some (JStr "left 20 degrees rudder, passing course 090, aye").
Proof. reflexivity. Qed.

(** ** The component: what a reply does to the state *)

(** Speaking the confirmation touches notifications and the speech
    channels only. *)
Lemma playAudioResponse_frame (A : Helm.AudioEnv) (text : jsval) (ui : Helm.UI) :
  let ui' := fst (Helm.playAudioResponse A text ui) in
  Helm.shipState ui' = Helm.shipState ui /\
  Helm.commandLog ui' = Helm.commandLog ui /\
  Helm.lastCommand ui' = Helm.lastCommand ui /\
  Helm.screenResponse ui' = Helm.screenResponse ui /\
  Helm.processingCommand ui' = Helm.processingCommand ui /\
  Helm.transcript ui' = Helm.transcript ui /\
  Helm.isMuted ui' = Helm.isMuted ui.
Proof.
  unfold Helm.playAudioResponse.
  destruct (Helm.isMuted ui) eqn:Hm; [cbn; now rewrite Hm|].
  destruct (Helm.keyConfigured A).
  - destruct (Helm.ttsFetch A) as [m|status]; [cbn; now rewrite Hm|].
    destruct (isOk status); cbn [negb]; [|cbn; now rewrite Hm].
    destruct (Helm.playback A); cbn; now rewrite Hm.
  - destruct (Helm.utterance A); cbn; now rewrite Hm.
Qed.

(** The state a call leaves behind, settled or not, when the gate was open
    and the reply passed both checks of lines 193-201. *)
Lemma processCommand_applied
    (A : Helm.AudioEnv) (status : Z) (result : json) (command : string)
    (ui : Helm.UI) :
  Helm.processingCommand ui = false -> isOk status = true ->
  result <> JNull -> truthy (prop "error" result) = false ->
  let ui' := Helm.stateOf
               (Helm.processCommand A (Helm.FetchReplies status (Ok result))
                  command ui) in
  Helm.shipState ui' =
    match prop "stateUpdates" result with
    | Some su => if truthy (Some su) then Helm.merge (Helm.shipState ui) su
                 else Helm.shipState ui
    | None => Helm.shipState ui
    end /\
  Helm.commandLog ui' = Helm.pushLog (Helm.logEntry result command) (Helm.commandLog ui) /\
  Helm.lastCommand ui' = Helm.logEntry result command /\
  Helm.screenResponse ui' = prop "response" result.
Proof.
  intros Hgate Hok Hnn Herr ui'. subst ui'.
  unfold Helm.processCommand. rewrite Hgate.
  assert (Htry : Helm.tryBlock A (Helm.FetchReplies status (Ok result)) command
                   (Helm.setProcessingCommand true ui)
                 = Helm.applyResult A result command
                     (Helm.setProcessingCommand true ui)).
  { unfold Helm.tryBlock. rewrite Hok. cbn [negb].
    destruct result; try congruence;
      (destruct (prop "error" _) as [e|] eqn:He; [|reflexivity]);
      rewrite Herr; reflexivity. }
  rewrite Htry. unfold Helm.applyResult.
  match goal with
  | |- context [Helm.playAudioResponse A ?t ?u] =>
      pose proof (playAudioResponse_frame A t u) as Hf;
      destruct (Helm.playAudioResponse A t u) as [ui5 r]
  end.
  cbn [fst] in Hf. destruct Hf as (Hs & Hl & Hc & Hr & _).
  assert (Hgoal :
    Helm.shipState ui5 =
      match prop "stateUpdates" result with
      | Some su => if truthy (Some su) then Helm.merge (Helm.shipState ui) su
                   else Helm.shipState ui
      | None => Helm.shipState ui
      end /\
    Helm.commandLog ui5 = Helm.pushLog (Helm.logEntry result command) (Helm.commandLog ui) /\
    Helm.lastCommand ui5 = Helm.logEntry result command /\
    Helm.screenResponse ui5 = prop "response" result).
  { rewrite Hs, Hl, Hc, Hr.
    destruct (prop "stateUpdates" result) as [su|]; [destruct (truthy (Some su))|];
      repeat split. }
  destruct r; cbn; exact Hgoal.
Qed.

Lemma validateAndFormat_reply (d : Spec.StateDelta) (text : string) :
  text <> EmptyString ->
  Route.validateAndFormat (Spec.interpreterReply d text) =
    Ok [("stateUpdates", Spec.deltaJson d);
        ("response",
         JStr (match Spec.dCourse d with
               | Some c =>
                   Route.replaceCourseRef ("course " ++ Route.formatNavalCourse c) text
               | None => text
               end))].
Proof.
  intros Htext.
  unfold Route.validateAndFormat, Spec.interpreterReply.
  cbn [prop lookup String.eqb Ascii.eqb Bool.eqb truthy negb orb].
  rewrite (nonempty_eqb _ Htext). cbn [negb orb].
  destruct d as [rd [c|] sd]; reflexivity.
Qed.

(** ** No range check between the interpreter and the ship's state *)




(** ** Failed submissions *)

(** A reply that fails one of the checks of lines 193-201 is thrown before
    any setter runs; the [catch] raises one notification and the [finally]
    reopens the gate. *)
Lemma processCommand_rejected_reply
    (A : Helm.AudioEnv) (status : Z) (parsed : Result json) (command : string)
    (ui : Helm.UI) :
  Helm.processingCommand ui = false ->
  (isOk status = false \/
   exists result : json, parsed = Ok result /\ truthy (prop "error" result) = true) ->
  exists message : string,
    Helm.processCommand A (Helm.FetchReplies status parsed) command ui =
      Helm.Settled
        (Helm.setProcessingCommand false
           (Helm.toast {| Helm.title := "Command Error"; Helm.description := message |}
              (Helm.setProcessingCommand true ui))).
Proof.
  intros Hgate H. unfold Helm.processCommand. rewrite Hgate.
  unfold Helm.tryBlock. destruct (isOk status) eqn:Hok; cbn [negb].
  - destruct H as [H | (result & -> & Herr)]; [discriminate|].
    destruct result; try discriminate.
    cbn [prop] in *. destruct (lookup "error" fields) as [e|]; [|discriminate].
    rewrite Herr. eexists. reflexivity.
  - eexists. reflexivity.
Qed.

(** C4. A submission answered outside 2xx, or whose reply carries an
    [error] (a value the test [if (result.error)] takes as true), leaves
    the ship's state, the command log, the last command, the displayed
    confirmation and the speech channels as they were; it raises one
    Command Error notification, and the call settles with the gate open. *)
Theorem failed_submission_has_no_effect
    (A : Helm.AudioEnv) (status : Z) (parsed : Result json) (command : string)
    (ui : Helm.UI) :
  Helm.processingCommand ui = false ->
  (isOk status = false \/
   exists result : json, parsed = Ok result /\ truthy (prop "error" result) = true) ->
  exists (ui' : Helm.UI) (message : string),
    Helm.processCommand A (Helm.FetchReplies status parsed) command ui =
      Helm.Settled ui' /\
    Helm.shipState ui' = Helm.shipState ui /\
    Helm.commandLog ui' = Helm.commandLog ui /\
    Helm.lastCommand ui' = Helm.lastCommand ui /\
    Helm.screenResponse ui' = Helm.screenResponse ui /\
    Helm.dispatched ui' = Helm.dispatched ui /\
    Helm.toasts ui' =
      (Helm.toasts ui ++
       [{| Helm.title := "Command Error"; Helm.description := message |}])%list /\
    Helm.processingCommand ui' = false.
Proof.
  intros Hgate H.
  destruct (processCommand_rejected_reply A status parsed command ui Hgate H)
    as (message & Hrun).
  eexists _, message. split; [exact Hrun|]. repeat split.
Qed.

Lemma failed_submission_has_no_effect_witness :
  exists (ui' : Helm.UI) (message : string),
    Helm.processCommand Demo.onDevice
      (Helm.FetchReplies 500
         (Ok (JObj [("error",
                     JStr "Failed to process command: Invalid interpretation structure")])))
      "helm left 20" Helm.initialUI = Helm.Settled ui' /\
    Helm.shipState ui' = Helm.shipState Helm.initialUI /\
    Helm.commandLog ui' = Helm.commandLog Helm.initialUI /\
    Helm.lastCommand ui' = Helm.lastCommand Helm.initialUI /\
    Helm.screenResponse ui' = Helm.screenResponse Helm.initialUI /\
    Helm.dispatched ui' = Helm.dispatched Helm.initialUI /\
    Helm.toasts ui' =
      (Helm.toasts Helm.initialUI ++
       [{| Helm.title := "Command Error"; Helm.description := message |}])%list /\
    Helm.processingCommand ui' = false.
Proof.
  apply (failed_submission_has_no_effect Demo.onDevice 500
           (Ok (JObj [("error",
                       JStr "Failed to process command: Invalid interpretation structure")]))
           "helm left 20" Helm.initialUI).
  - reflexivity.
  - left. reflexivity.
Defined.

(** X25. Every failure of the route (missing key, unreadable body, missing
    command, correction failure, unparsable or incomplete interpretation)
    reaches the component as a reply outside 2xx: whenever the route
    answers anything but 200, the component settles with the ship's state
    and the log as they were, one more notification, and the gate open. *)
Lemma route_failure_has_no_effect
    (hasKey : bool) (C : Route.Collaborators) (A : Helm.AudioEnv)
    (command : string) (ui : Helm.UI) :
  Helm.processingCommand ui = false ->
  Route.status
    (Route.POST hasKey C
       (Some (Pipeline.requestBody command (Helm.shipState ui)))) <> 200 ->
  exists (ui' : Helm.UI),
    Pipeline.handleCommand hasKey C A command ui = Helm.Settled ui' /\
    Helm.shipState ui' = Helm.shipState ui /\
    Helm.commandLog ui' = Helm.commandLog ui /\
    length (Helm.toasts ui') = S (length (Helm.toasts ui)) /\
    Helm.processingCommand ui' = false.
Proof.
  intros Hgate Hst.
  destruct (POST_failure_is_error_reply hasKey C
              (Some (Pipeline.requestBody command (Helm.shipState ui))))
    as [H200 | (Hnok & _)]; [contradiction|].
  unfold Pipeline.handleCommand, Pipeline.submit.
  destruct (processCommand_rejected_reply A _ (Ok (Route.body (Route.POST hasKey C
              (Some (Pipeline.requestBody command (Helm.shipState ui))))))
              command ui Hgate (or_introl Hnok)) as (message & Hrun).
  eexists. split; [exact Hrun|]. repeat split.
  cbn. rewrite length_app. cbn. lia.
Qed.

(** ** The command log *)

(** C9 (as the code has it). On a reply that passes the checks, the entry
    put at the head of the log is the corrected command, or the command as
    submitted when the corrected command is empty; the rest of the log is
    the four most recent earlier entries in their order, so the log never
    holds more than 5 entries and the oldest one is dropped. *)
Theorem command_log_prepend_bounded
    (A : Helm.AudioEnv) (status : Z) (result : json)
    (command corrected : string) (ui : Helm.UI) :
  Helm.processingCommand ui = false -> isOk status = true ->
  truthy (prop "error" result) = false ->
  prop "correctedCommand" result = Some (JStr corrected) ->
  let ui' := Helm.stateOf
               (Helm.processCommand A (Helm.FetchReplies status (Ok result))
                  command ui) in
  Helm.commandLog ui' =
    (if String.eqb corrected EmptyString then JStr command else JStr corrected)
      :: firstn 4 (Helm.commandLog ui) /\
  (length (Helm.commandLog ui') <= 5)%nat.
Proof.
  intros Hgate Hok Herr Hcc ui'. subst ui'.
  assert (Hnn : result <> JNull) by (intros ->; discriminate).
  destruct (processCommand_applied A status result command ui Hgate Hok Hnn Herr)
    as (_ & Hl & _).
  rewrite Hl. unfold Helm.pushLog, Helm.logEntry. rewrite Hcc.
  cbn [truthy].
  assert (Heq : firstn 5
                  ((if negb (String.eqb corrected EmptyString)
                    then JStr corrected else JStr command) :: Helm.commandLog ui)
                = (if String.eqb corrected EmptyString then JStr command
                   else JStr corrected) :: firstn 4 (Helm.commandLog ui))
    by now destruct (String.eqb corrected EmptyString).
  rewrite Heq. split; [reflexivity|].
  cbn [Datatypes.length].
  pose proof (firstn_le_length 4 (Helm.commandLog ui)). lia.
Qed.

Lemma command_log_prepend_bounded_witness :
  let ui := Helm.setCommandLog
              [JStr "e5"; JStr "e4"; JStr "e3"; JStr "e2"; JStr "e1"]
              Helm.initialUI in
  let ui' := Helm.stateOf
               (Helm.processCommand Demo.onDevice
                  (Helm.FetchReplies 200
                     (Ok (JObj [("stateUpdates", JObj [("rudder", JNum 5);
                                                       ("course", JNull);
                                                       ("speed", JNull)]);
                                ("response", JStr "aye aye");
                                ("correctedCommand", JStr "Helm, right 5 degrees rudder")])))
                  "helm write 5" ui) in
  Helm.commandLog ui' =
    [JStr "Helm, right 5 degrees rudder"; JStr "e5"; JStr "e4"; JStr "e3"; JStr "e2"] /\
  (length (Helm.commandLog ui') <= 5)%nat.
Proof.
  exact (command_log_prepend_bounded Demo.onDevice 200
           (JObj [("stateUpdates", JObj [("rudder", JNum 5); ("course", JNull);
                                         ("speed", JNull)]);
                  ("response", JStr "aye aye");
                  ("correctedCommand", JStr "Helm, right 5 degrees rudder")])
           "helm write 5" "Helm, right 5 degrees rudder"
           (Helm.setCommandLog
              [JStr "e5"; JStr "e4"; JStr "e3"; JStr "e2"; JStr "e1"]
              Helm.initialUI)
           eq_refl eq_refl eq_refl eq_refl).
Defined.

(** C9 (as stated) fails: when the correction comes back blank the route
    still answers 200, with an empty corrected command, and the entry put
    in the log is the command as submitted. *)
Lemma blank_correction_logs_raw_command :
  let C := Demo.scripted "   "
             (Spec.interpreterReply
                {| Spec.dRudder := Some (-20); Spec.dCourse := None;
                   Spec.dSpeed := None |}
                "left 20 degrees rudder, aye aye") in
  let r := Route.POST true C
             (Some (Pipeline.requestBody "helm love 20" Helm.initialShipState)) in
  Route.status r = 200 /\
  prop "correctedCommand" (Route.body r) = Some (JStr "") /\
  exists ui' : Helm.UI,
    Pipeline.handleCommand true C Demo.onDevice "helm love 20" Helm.initialUI
      = Helm.Settled ui' /\
    Helm.commandLog ui' = [JStr "helm love 20"] /\
    Helm.commandLog ui' <> [JStr ""].
Proof.
  cbv zeta. repeat split; try reflexivity.
  eexists. repeat split; try reflexivity.
  vm_compute. discriminate.
Qed.

(** The bound is an invariant of every call, whatever the reply. *)
Lemma command_log_bound_invariant
    (A : Helm.AudioEnv) (net : Helm.FetchOutcome) (command : string) (ui : Helm.UI) :
  (length (Helm.commandLog ui) <= 5)%nat ->
  (length (Helm.commandLog (Helm.stateOf (Helm.processCommand A net command ui))) <= 5)%nat.
Proof.
  intros Hlen. unfold Helm.processCommand.
  destruct (Helm.processingCommand ui); [exact Hlen|].
  assert (Htry : (length (Helm.commandLog
                    (fst (Helm.tryBlock A net command
                            (Helm.setProcessingCommand true ui)))) <= 5)%nat).
  { unfold Helm.tryBlock.
    assert (Happ : forall result,
              (length (Helm.commandLog
                 (fst (Helm.applyResult A result command
                         (Helm.setProcessingCommand true ui)))) <= 5)%nat).
    { intros result. unfold Helm.applyResult.
      match goal with
      | |- context [Helm.playAudioResponse A ?t ?u] =>
          destruct (playAudioResponse_frame A t u) as (_ & Hl & _)
      end.
      rewrite Hl.
      destruct (prop "stateUpdates" result) as [su|];
        [destruct (truthy (Some su))|];
        cbn [Helm.commandLog Helm.setScreenResponse Helm.setShipState
             Helm.setCommandLog]; unfold Helm.pushLog;
        rewrite length_firstn; lia. }
    destruct net as [m|status parsed]; [exact Hlen|].
    destruct (isOk status); cbn [negb]; [|exact Hlen].
    destruct parsed as [result|m]; [|exact Hlen].
    destruct result; try (exact Hlen);
      (destruct (prop "error" _) as [e|];
       [destruct (truthy (Some e)); [exact Hlen | apply Happ] | apply Happ]). }
  destruct (Helm.tryBlock A net command (Helm.setProcessingCommand true ui))
    as [ui2 r].
  cbn [fst] in Htry. destruct r; exact Htry.
Qed.

(** ** Speaking the confirmation *)

(** C5 (as the code has it). When not muted, the dispatcher uses one
    channel, chosen by configuration.  With the key of the speech service
    configured the text goes to the primary channel and to it alone: the
    dispatch succeeds exactly when the request is answered 2xx and the
    playback ends, and otherwise it is rejected.  Without the key the text
    goes to the on-device channel, with the first voice whose name contains
    Daniel, Premium or Natural when there is one. *)
Theorem speech_channel_is_chosen_by_configuration
    (A : Helm.AudioEnv) (text : jsval) (ui : Helm.UI) :
  Helm.isMuted ui = false ->
  let out := Helm.playAudioResponse A text ui in
  if Helm.keyConfigured A
  then Helm.dispatched (fst out) = (Helm.dispatched ui ++ [Helm.ToElevenLabs text])%list /\
       (snd out = Helm.Resolved <->
        (exists status : Z, Helm.ttsFetch A = Helm.TtsStatus status /\ isOk status = true) /\
        Helm.playback A = Helm.PlayEnded) /\
       (snd out = Helm.Resolved \/ exists e : Helm.Thrown, snd out = Helm.Rejected e)
  else Helm.dispatched (fst out) =
         (Helm.dispatched ui ++
          [Helm.ToSpeechSynthesis text (find Helm.isPreferredVoice (Helm.voices A))])%list.
Proof.
  intros Hm out. subst out. unfold Helm.playAudioResponse. rewrite Hm.
  destruct (Helm.keyConfigured A); [|destruct (Helm.utterance A); reflexivity].
  destruct (Helm.ttsFetch A) as [m|status] eqn:Hf.
  - cbn [fst snd]. split; [reflexivity|]. split; [split|].
    + intros H. discriminate H.
    + intros [(status & Hs & _) _]. discriminate Hs.
    + right. eexists. reflexivity.
  - destruct (isOk status) eqn:Hok; cbn [negb].
    + destruct (Helm.playback A) eqn:Hp; cbn [fst snd];
        (split; [reflexivity|]); (split; [split|]).
      * intros _. split; [exists status; now split | reflexivity].
      * reflexivity.
      * left. reflexivity.
      * intros H. discriminate H.
      * intros [_ H]. discriminate H.
      * right. eexists. reflexivity.
      * intros H. discriminate H.
      * intros [_ H]. discriminate H.
      * right. eexists. reflexivity.
    + cbn [fst snd]. split; [reflexivity|]. split; [split|].
      * intros H. discriminate H.
      * intros [(status' & Hs & Hok') _]. congruence.
      * right. eexists. reflexivity.
Qed.

Lemma speech_channel_is_chosen_by_configuration_witness :
  Helm.dispatched
    (fst (Helm.playAudioResponse Demo.onDevice (Some (JStr "aye aye")) Helm.initialUI))
  = [Helm.ToSpeechSynthesis (Some (JStr "aye aye")) (Some "Daniel (Enhanced)")].
Proof.
  exact (speech_channel_is_chosen_by_configuration Demo.onDevice
           (Some (JStr "aye aye")) Helm.initialUI eq_refl).
Defined.

(** C5 (as stated) fails: with the key configured and the speech service
    answering 500, the dispatch is rejected and an Audio Error is raised;
    nothing is handed to the on-device channel, although it has a preferred
    voice and would complete. *)
Lemma primary_failure_has_no_fallback :
  let A := {| Helm.ELEVENLABS_API_KEY := Some "configured-key";
              Helm.ttsFetch := Helm.TtsStatus 500;
              Helm.playback := Helm.PlayEnded;
              Helm.voices := ["Alex"; "Daniel (Enhanced)"];
              Helm.utterance := Helm.UtteranceEnds |} in
  let out := Helm.playAudioResponse A (Some (JStr "aye aye")) Helm.initialUI in
  snd out = Helm.Rejected (Helm.ErrorObject "ElevenLabs API error: 500") /\
  Helm.dispatched (fst out) = [Helm.ToElevenLabs (Some (JStr "aye aye"))] /\
  Helm.toasts (fst out) = [Helm.audioErrorToast].
Proof. repeat split. Qed.

(** ** The single-flight gate *)

(** While the gate is held a transcript is stored by the speech hook and
    nothing else happens: neither the effect nor a direct call does
    anything. *)
Lemma in_flight_transcript_is_discarded
    (A : Helm.AudioEnv) (net : Helm.FetchOutcome) (text : string) (ui : Helm.UI) :
  Helm.processingCommand ui = true ->
  Helm.transcriptEffect A net (Helm.transcriptArrives text ui)
    = Helm.Settled (Helm.transcriptArrives text ui) /\
  Helm.processCommand A net text ui = Helm.Settled ui.
Proof.
  intros Hgate. unfold Helm.transcriptEffect, Helm.processCommand.
  cbn [Helm.processingCommand Helm.transcriptArrives Helm.setTranscript].
  rewrite Hgate, orb_true_r. split; reflexivity.
Qed.

(** A call that settles leaves the gate open: the [finally] ran. *)
Lemma settled_call_releases_the_gate
    (A : Helm.AudioEnv) (net : Helm.FetchOutcome) (command : string)
    (ui ui' : Helm.UI) :
  Helm.processingCommand ui = false ->
  Helm.processCommand A net command ui = Helm.Settled ui' ->
  Helm.processingCommand ui' = false.
Proof.
  intros Hgate. unfold Helm.processCommand. rewrite Hgate.
  destruct (Helm.tryBlock A net command (Helm.setProcessingCommand true ui))
    as [ui2 [ | e | ]]; intros H; inversion H; reflexivity.
Qed.

(** A call that stays suspended has taken the gate and not given it
    back. *)
Lemma suspended_call_holds_the_gate
    (A : Helm.AudioEnv) (net : Helm.FetchOutcome) (command : string)
    (ui ui' : Helm.UI) :
  Helm.processCommand A net command ui = Helm.Suspended ui' ->
  Helm.processingCommand ui' = true.
Proof.
  unfold Helm.processCommand.
  destruct (Helm.processingCommand ui) eqn:Hgate; [discriminate|].
  destruct (Helm.tryBlock A net command (Helm.setProcessingCommand true ui))
    as [ui2 r] eqn:Htry.
  destruct r; try discriminate. intros H. inversion H; subst ui2. clear H.
  assert (Happ : exists result,
            Helm.applyResult A result command (Helm.setProcessingCommand true ui)
              = (ui', Helm.NeverSettles)).
  { unfold Helm.tryBlock in Htry.
    destruct net as [m|status parsed]; [discriminate|].
    destruct (isOk status); cbn [negb] in Htry; [|discriminate].
    destruct parsed as [result|m]; [|discriminate].
    exists result.
    destruct result; try discriminate;
      (destruct (prop "error" _) as [e|];
       [destruct (truthy (Some e)); [discriminate | exact Htry] | exact Htry]). }
  destruct Happ as (result & Happ). unfold Helm.applyResult in Happ.
  match type of Happ with
  | Helm.playAudioResponse A ?t ?u = _ =>
      pose proof (playAudioResponse_frame A t u) as Hf
  end.
  rewrite Happ in Hf. cbn [fst snd] in Hf.
  destruct Hf as (_ & _ & _ & _ & Hp & _ & Hmuted).
  rewrite Hp. now destruct (prop "stateUpdates" result) as [su|];
      [destruct (truthy (Some su))|].
Qed.

(** C3. A command answered 200 whose confirmation goes to the on-device
    channel, with an utterance that fails instead of ending: the call stays
    suspended at [await playAudioResponse], the [finally] does not run, the
    gate stays held, and from then on every transcript is discarded,
    whatever the replies and the audio would be. *)
Theorem gate_stays_held_when_utterance_fails :
  let A := {| Helm.ELEVENLABS_API_KEY := None;
              Helm.ttsFetch := Helm.TtsStatus 200;
              Helm.playback := Helm.PlayEnded;
              Helm.voices := ["Alex"; "Daniel (Enhanced)"];
              Helm.utterance := Helm.UtteranceFails |} in
  let C := Demo.scripted "Helm, left 20 degrees rudder"
             (Spec.interpreterReply
                {| Spec.dRudder := Some (-20); Spec.dCourse := None;
                   Spec.dSpeed := None |}
                "left 20 degrees rudder, aye aye") in
  let run := Helm.transcriptEffect A
               (Pipeline.submit true C "helm love 20" Helm.initialShipState)
               (Helm.transcriptArrives "helm love 20" Helm.initialUI) in
  exists ui' : Helm.UI,
    run = Helm.Suspended ui' /\
    Helm.processingCommand ui' = true /\
    forall (A' : Helm.AudioEnv) (net : Helm.FetchOutcome) (text : string),
      Helm.transcriptEffect A' net (Helm.transcriptArrives text ui')
        = Helm.Settled (Helm.transcriptArrives text ui') /\
      Helm.processCommand A' net text ui' = Helm.Settled ui'.
Proof.
  cbv zeta. eexists. split; [reflexivity|]. split; [reflexivity|].
  intros A' net text. now apply in_flight_transcript_is_discarded.
Qed.

(* ================================================================== *)
(** * Further properties of the route *)

Lemma lookup_setField_same (k : string) (v : json) (fields : list (string * json)) :
  lookup k (setField k v fields) = Some v.
Proof.
  induction fields as [|[k' v'] rest IH]; cbn.
  - now rewrite String.eqb_refl.
  - destruct (String.eqb k k') eqn:E; cbn.
    + now rewrite String.eqb_refl.
    + now rewrite E.
Qed.

Lemma lookup_setField_other (k k' : string) (v : json) (fields : list (string * json)) :
  k <> k' -> lookup k (setField k' v fields) = lookup k fields.
Proof.
  intros Hne. induction fields as [|[k0 v0] rest IH]; cbn.
  - now rewrite (proj2 (String.eqb_neq k k') Hne).
  - destruct (String.eqb k' k0) eqn:E; cbn.
    + apply String.eqb_eq in E. subst k0.
      now rewrite (proj2 (String.eqb_neq k k') Hne).
    + now rewrite IH.
Qed.

Lemma trimStart_not_white (s : string) : startsWhite (trimStart s) = false.
Proof.
  induction s as [|c rest IH]; [reflexivity|].
  cbn. destruct (isWhite c) eqn:E; [exact IH | cbn; exact E].
Qed.

Lemma trimStart_fixed (s : string) : startsWhite s = false -> trimStart s = s.
Proof. destruct s as [|c rest]; cbn; [reflexivity | now intros ->]. Qed.

Lemma trimEnd_cons (c : ascii) (rest : string) :
  trimEnd (String c rest) =
    match trimEnd rest with
    | EmptyString => if isWhite c then EmptyString else String c EmptyString
    | r => String c r
    end.
Proof. reflexivity. Qed.

Lemma trimEnd_starts (s : string) :
  startsWhite s = false -> startsWhite (trimEnd s) = false.
Proof.
  destruct s as [|c rest]; [reflexivity|]. rewrite trimEnd_cons. cbn. intros Hc.
  destruct (trimEnd rest); [rewrite Hc|]; cbn; exact Hc.
Qed.

Lemma trimEnd_idempotent (s : string) : trimEnd (trimEnd s) = trimEnd s.
Proof.
  induction s as [|c rest IH]; [reflexivity|].
  rewrite trimEnd_cons. destruct (trimEnd rest) as [|c' r'] eqn:E.
  - destruct (isWhite c) eqn:Hc; [reflexivity|]. cbn. now rewrite Hc.
  - rewrite trimEnd_cons, IH. reflexivity.
Qed.

Lemma trimEnd_not_white (s : string) : endsWhite (trimEnd s) = false.
Proof.
  induction s as [|c rest IH]; [reflexivity|].
  rewrite trimEnd_cons. destruct (trimEnd rest) as [|c' r'] eqn:E.
  - destruct (isWhite c) eqn:Hc; [reflexivity | cbn; exact Hc].
  - exact IH.
Qed.

(** What [trim] returns has no white space at either end, and trimming it
    again changes nothing. *)
Lemma trim_idempotent (s : string) :
  trim (trim s) = trim s /\ startsWhite (trim s) = false /\ endsWhite (trim s) = false.
Proof.
  unfold trim.
  pose proof (trimEnd_starts _ (trimStart_not_white s)) as Hs.
  rewrite (trimStart_fixed _ Hs), trimEnd_idempotent.
  repeat split; [exact Hs | apply trimEnd_not_white].
Qed.

Lemma replaceCourseRef_nonempty (r text : string) :
  r <> EmptyString -> text <> EmptyString ->
  Route.replaceCourseRef r text <> EmptyString.
Proof.
  intros Hr Ht. rewrite replaceCourseRef_unfold.
  destruct (Route.courseRefAt text).
  - destruct r; [congruence | discriminate].
  - destruct text; [congruence | discriminate].
Qed.

(** What passing the structure check and the course rewriting gives. *)
Lemma validateAndFormat_ok_inv (interp : json) (fields' : list (string * json)) :
  Route.validateAndFormat interp = Ok fields' ->
  exists (fields : list (string * json)) (su : json),
    interp = JObj fields /\
    lookup "stateUpdates" fields = Some su /\ truthy (Some su) = true /\
    prop "course" su <> undefined /\
    truthy (lookup "response" fields) = true /\
    truthy (lookup "response" fields') = true /\
    forall k : string, k <> "response" -> lookup k fields' = lookup k fields.
Proof.
  unfold Route.validateAndFormat.
  destruct interp as [| | | | |fields]; try discriminate.
  cbn [prop].
  destruct (lookup "stateUpdates" fields) as [su|] eqn:Hsu; [|discriminate].
  destruct (truthy (Some su)) eqn:Hsut; [|discriminate].
  destruct (truthy (lookup "response" fields)) eqn:Hr; [|discriminate].
  cbn [negb orb].
  destruct (prop "course" su) as [c|] eqn:Hc.
  - destruct (notNull (Some c)) eqn:Hnn.
    + destruct (Route.formatNavalCourseAny (Some c)) as [spoken|]; [|discriminate].
      destruct (lookup "response" fields) as [[| | |text| |]|] eqn:Hresp;
        try discriminate.
      intros H. inversion H; subst fields'. clear H.
      exists fields, su.
      split; [reflexivity|]. split; [assumption|]. split; [assumption|].
      split; [rewrite Hc; discriminate|].
      split; [rewrite Hresp; exact Hr|].
      split.
      * rewrite lookup_setField_same. cbn.
        rewrite nonempty_eqb; [reflexivity|].
        apply replaceCourseRef_nonempty; [discriminate|].
        cbn in Hr. intros ->. discriminate Hr.
      * intros k Hk. now apply lookup_setField_other.
    + intros H. inversion H; subst fields'.
      exists fields, su.
      split; [reflexivity|]. split; [assumption|]. split; [assumption|].
      split; [rewrite Hc; discriminate|].
      split; [exact Hr|]. split; [exact Hr | reflexivity].
  - cbn [notNull Route.formatNavalCourseAny]. discriminate.
Qed.

Lemma processRequest_ok_inv
    (C : Route.Collaborators) (cmd : json) (cs : jsval) (reply : json) :
  Route.processRequest C cmd cs = Ok reply ->
  exists (corrected : string) (interp : json) (fields : list (string * json)),
    Route.interpretsAs C cmd cs corrected interp /\
    Route.validateAndFormat interp = Ok fields /\
    reply = JObj (setField "correctedCommand" (JStr corrected)
                    (setField "originalCommand" cmd fields)).
Proof.
  unfold Route.processRequest, Route.contentOf, Route.parseInterpretation.
  destruct (Route.correction C cmd) as [m|[c1|]] eqn:Hc; try discriminate.
  cbn [Route.contentTruthy Route.contentText].
  destruct (String.eqb c1 EmptyString) eqn:E1; [discriminate|]. cbn [negb bind].
  destruct (Route.interpretation C cs (trim c1)) as [m|[c2|]] eqn:Hi; try discriminate.
  cbn [Route.contentTruthy Route.contentText].
  destruct (String.eqb c2 EmptyString) eqn:E2; [discriminate|]. cbn [negb bind].
  destruct (Route.JSON_parse C (Route.jsonText (trim c2))) as [interp|] eqn:Hp;
    [|discriminate].
  cbn [bind].
  destruct (Route.validateAndFormat interp) as [fields|m] eqn:Hv; [|discriminate].
  cbn [bind]. intros H. inversion H.
  exists (trim c1), interp, fields.
  split; [|split; [exact Hv | reflexivity]].
  exists c1, c2. apply String.eqb_neq in E1, E2.
  split; [exact Hc|]. split; [exact E1|]. split; [reflexivity|].
  split; [exact Hi|]. split; [exact E2 | exact Hp].
Qed.

Lemma POST_ok_inv (hasKey : bool) (C : Route.Collaborators) (rb : option json) :
  Route.status (Route.POST hasKey C rb) = 200 ->
  exists (b cmd reply : json),
    hasKey = true /\ rb = Some b /\ b <> JNull /\
    prop "command" b = Some cmd /\ truthy (Some cmd) = true /\
    Route.processRequest C cmd (prop "currentState" b) = Ok reply /\
    Route.POST hasKey C rb = {| Route.status := 200; Route.body := reply |}.
Proof.
  unfold Route.POST.
  destruct hasKey; cbn [negb]; [|discriminate].
  destruct rb as [b|]; [|discriminate].
  destruct b; try discriminate;
    (destruct (prop "command" _) as [cmd|] eqn:Hcmd; [|discriminate];
     destruct (truthy (Some cmd)) eqn:Ht; [|discriminate];
     destruct (Route.processRequest C cmd _) as [reply|m] eqn:Hp; [|discriminate];
     intros _; eexists _, cmd, reply;
     repeat split; try eassumption; try reflexivity; discriminate).
Qed.

Lemma POST_nonnull (C : Route.Collaborators) (b : json) :
  b <> JNull ->
  Route.POST true C (Some b) =
    match prop "command" b with
    | Some cmd =>
        if truthy (Some cmd) then
          match Route.processRequest C cmd (prop "currentState" b) with
          | Ok reply => {| Route.status := 200; Route.body := reply |}
          | Throw m => Route.errorResponse ("Failed to process command: " ++ m) 500
          end
        else Route.errorResponse "Command is required" 400
    | None => Route.errorResponse "Command is required" 400
    end.
Proof.
  intros Hb. unfold Route.POST. cbn [negb].
  destruct b; try congruence; cbn [prop]; try reflexivity.
  destruct (lookup "command" fields); reflexivity.
Qed.

(** X1. The route answers 200, 400 or 500 and nothing else.  It answers
    400 exactly when the key is set and the request body cannot be read or
    carries no command that counts as true; without the key it answers 500
    with the message about the missing key, whatever the request and the
    completion service. *)
Theorem POST_status_classes
    (hasKey : bool) (C : Route.Collaborators) (rb : option json) :
  let r := Route.POST hasKey C rb in
  (Route.status r = 200 \/ Route.status r = 400 \/ Route.status r = 500) /\
  (Route.status r = 400 <->
   hasKey = true /\
   (rb = None \/
    exists b : json, rb = Some b /\ b <> JNull /\ truthy (prop "command" b) = false)) /\
  (hasKey = false ->
   r = Route.errorResponse "Missing GROQ_API_KEY environment variable" 500).
Proof.
  intros r. subst r.
  destruct hasKey.
  2: { cbn. split; [auto|]. split; [|reflexivity].
       split; [discriminate | intros [H _]; discriminate H]. }
  destruct rb as [b|].
  2: { cbn. split; [auto|]. split; [|discriminate].
       split; [intros _; split; [reflexivity | left; reflexivity] | reflexivity]. }
  assert (Hnull : {b = JNull} + {b <> JNull})
    by (destruct b; (left; reflexivity) || (right; discriminate)).
  destruct Hnull as [-> | Hb].
  { cbn. split; [auto|]. split; [|discriminate].
    split; [discriminate|].
    intros [_ [H | (b' & H & Hb' & _)]]; [discriminate H|].
    inversion H. congruence. }
  rewrite (POST_nonnull C b Hb).
  assert (Hmissing : truthy (prop "command" b) = false ->
            true = true /\
            (Some b = None \/
             exists b' : json,
               Some b = Some b' /\ b' <> JNull /\ truthy (prop "command" b') = false))
    by (intros Hf; split; [reflexivity|]; right; exists b; now repeat split).
  assert (Hpresent : truthy (prop "command" b) = true ->
            ~ (true = true /\
               (Some b = None \/
                exists b' : json,
                  Some b = Some b' /\ b' <> JNull /\
                  truthy (prop "command" b') = false))).
  { intros Ht [_ [H | (b' & H & _ & Hf)]]; [discriminate H|].
    inversion H; subst b'. congruence. }
  destruct (prop "command" b) as [cmd|] eqn:Hcmd.
  - destruct (truthy (Some cmd)) eqn:Ht.
    + destruct (Route.processRequest C cmd (prop "currentState" b));
        cbn; (split; [auto|]); (split; [|discriminate]);
        (split; [discriminate | intros H; exfalso; now apply Hpresent]).
    + cbn. split; [auto|]. split; [|discriminate].
      split; [intros _; now apply Hmissing | reflexivity].
  - cbn. split; [auto|]. split; [|discriminate].
    split; [intros _; now apply Hmissing | reflexivity].
Qed.

(** X2. Every 200 of the route is a complete reply: [stateUpdates] and
    [response] count as true, [stateUpdates.course] is there ([null] or a
    value, never missing), [originalCommand] is the command of the request
    and [correctedCommand] is a string with no white space at either
    end. *)
Theorem ok_reply_is_complete
    (hasKey : bool) (C : Route.Collaborators) (rb : option json) :
  let r := Route.POST hasKey C rb in
  Route.status r = 200 ->
  exists (b cmd su : json) (corrected : string),
    rb = Some b /\ prop "command" b = Some cmd /\
    prop "originalCommand" (Route.body r) = Some cmd /\
    prop "correctedCommand" (Route.body r) = Some (JStr corrected) /\
    startsWhite corrected = false /\ endsWhite corrected = false /\
    prop "stateUpdates" (Route.body r) = Some su /\ truthy (Some su) = true /\
    prop "course" su <> undefined /\
    truthy (prop "response" (Route.body r)) = true.
Proof.
  intros r H200. subst r.
  destruct (POST_ok_inv _ _ _ H200)
    as (b & cmd & reply & _ & Hrb & _ & Hcmd & _ & Hp & ->).
  destruct (processRequest_ok_inv _ _ _ _ Hp)
    as (corrected & interp & fields' & Hi & Hv & ->).
  destruct (validateAndFormat_ok_inv _ _ Hv)
    as (fields & su & _ & Hsu & Hsut & Hcourse & _ & Hresp' & Hkeep).
  destruct Hi as (c1 & _ & _ & _ & -> & _).
  destruct (trim_idempotent c1) as (_ & Hsw & Hew).
  exists b, cmd, su, (trim c1). cbn [Route.body prop].
  repeat split; try assumption.
  - rewrite lookup_setField_other by discriminate. apply lookup_setField_same.
  - apply lookup_setField_same.
  - rewrite !lookup_setField_other by discriminate.
    rewrite Hkeep by discriminate. exact Hsu.
  - rewrite !lookup_setField_other by discriminate. exact Hresp'.
Qed.

Lemma ok_reply_is_complete_witness :
  exists (b cmd su : json) (corrected : string),
    Demo.requestOf "helm love 20" = Some b /\ prop "command" b = Some cmd /\
    prop "originalCommand"
      (Route.body (Route.POST true Demo.left20 (Demo.requestOf "helm love 20")))
      = Some cmd /\
    prop "correctedCommand"
      (Route.body (Route.POST true Demo.left20 (Demo.requestOf "helm love 20")))
      = Some (JStr corrected) /\
    startsWhite corrected = false /\ endsWhite corrected = false /\
    prop "stateUpdates"
      (Route.body (Route.POST true Demo.left20 (Demo.requestOf "helm love 20")))
      = Some su /\
    truthy (Some su) = true /\ prop "course" su <> undefined /\
    truthy (prop "response"
              (Route.body (Route.POST true Demo.left20 (Demo.requestOf "helm love 20"))))
      = true.
Proof.
  exact (ok_reply_is_complete true Demo.left20 (Demo.requestOf "helm love 20") eq_refl).
Defined.

(** X3. In a 200 the two command fields are the route's own, whatever the
    interpreter put under those names, and every other key of the
    interpreter's object except [response] is passed on as it came, an
    [error] key included. *)
Theorem interpreter_keys_pass_through
    (C : Route.Collaborators) (b cmd : json) (corrected : string)
    (fields : list (string * json)) :
  b <> JNull -> prop "command" b = Some cmd -> truthy (Some cmd) = true ->
  Route.interpretsAs C cmd (prop "currentState" b) corrected (JObj fields) ->
  Route.status (Route.POST true C (Some b)) = 200 ->
  prop "originalCommand" (Route.body (Route.POST true C (Some b))) = Some cmd /\
  prop "correctedCommand" (Route.body (Route.POST true C (Some b)))
    = Some (JStr corrected) /\
  forall k : string,
    k <> "response" -> k <> "originalCommand" -> k <> "correctedCommand" ->
    prop k (Route.body (Route.POST true C (Some b))) = lookup k fields.
Proof.
  intros Hb Hcmd Ht Hi.
  rewrite (POST_interpreted _ _ _ _ _ Hb Hcmd Ht Hi).
  destruct (Route.validateAndFormat (JObj fields)) as [fields'|m] eqn:Hv;
    [|discriminate].
  intros _. cbn [Route.body prop].
  destruct (validateAndFormat_ok_inv _ _ Hv) as (fields0 & _ & Heq & _ & _ & _ & _ & Hkeep).
  inversion Heq; subst fields0.
  split; [|split].
  - rewrite lookup_setField_other by discriminate. apply lookup_setField_same.
  - apply lookup_setField_same.
  - intros k Hr Ho Hc. rewrite !lookup_setField_other by assumption.
    now apply Hkeep.
Qed.

Lemma interpreter_keys_pass_through_witness :
  let C := Demo.scripted "Helm, all stop"
             (JObj [("stateUpdates", JObj [("rudder", JNull); ("course", JNull);
                                           ("speed", JNum 0)]);
                    ("response", JStr "all stop, aye aye");
                    ("correctedCommand", JStr "something else");
                    ("confidence", JNum 1)]) in
  prop "originalCommand" (Route.body (Route.POST true C (Demo.requestOf "all stop")))
    = Some (JStr "all stop") /\
  prop "correctedCommand" (Route.body (Route.POST true C (Demo.requestOf "all stop")))
    = Some (JStr "Helm, all stop") /\
  prop "confidence" (Route.body (Route.POST true C (Demo.requestOf "all stop")))
    = Some (JNum 1).
Proof.
  cbv zeta.
  destruct (interpreter_keys_pass_through
              (Demo.scripted "Helm, all stop"
                 (JObj [("stateUpdates", JObj [("rudder", JNull); ("course", JNull);
                                               ("speed", JNum 0)]);
                        ("response", JStr "all stop, aye aye");
                        ("correctedCommand", JStr "something else");
                        ("confidence", JNum 1)]))
              (Pipeline.requestBody "all stop" Helm.initialShipState)
              (JStr "all stop") "Helm, all stop"
              [("stateUpdates", JObj [("rudder", JNull); ("course", JNull);
                                      ("speed", JNum 0)]);
               ("response", JStr "all stop, aye aye");
               ("correctedCommand", JStr "something else");
               ("confidence", JNum 1)]
              ltac:(discriminate) eq_refl eq_refl ltac:(scripted_interprets) eq_refl)
    as (Ho & Hc & Hk).
  split; [exact Ho|]. split; [exact Hc|].
  exact (Hk "confidence" ltac:(discriminate) ltac:(discriminate) ltac:(discriminate)).
Defined.

(** X4. An [error] the interpreter puts in its object travels through the
    route, which still answers 200, and makes the component abort: the
    ship's state and the log stay as they were and the notification shows
    the interpreter's text. *)
Theorem interpreter_error_aborts_in_component
    (C : Route.Collaborators) (A : Helm.AudioEnv)
    (command corrected text : string) (d : Spec.StateDelta) (e : json)
    (ui : Helm.UI) :
  Helm.processingCommand ui = false ->
  command <> EmptyString -> text <> EmptyString -> truthy (Some e) = true ->
  Route.interpretsAs C (JStr command)
    (Some (Pipeline.currentStateJson (Helm.shipState ui))) corrected
    (JObj [("stateUpdates", Spec.deltaJson d); ("response", JStr text);
           ("error", e)]) ->
  Route.status
    (Route.POST true C (Some (Pipeline.requestBody command (Helm.shipState ui))))
    = 200 /\
  exists ui' : Helm.UI,
    Pipeline.handleCommand true C A command ui = Helm.Settled ui' /\
    Helm.shipState ui' = Helm.shipState ui /\
    Helm.commandLog ui' = Helm.commandLog ui /\
    Helm.toasts ui' =
      (Helm.toasts ui ++
       [{| Helm.title := "Command Error";
           Helm.description := Helm.errorMessageOf e |}])%list /\
    Helm.processingCommand ui' = false.
Proof.
  intros Hgate Hcmd Htext He Hi.
  unfold Pipeline.handleCommand, Pipeline.submit.
  assert (Ht : truthy (Some (JStr command)) = true)
    by (cbn; now rewrite (nonempty_eqb _ Hcmd)).
  rewrite (POST_interpreted C
             (Pipeline.requestBody command (Helm.shipState ui)) (JStr command)
             corrected _ ltac:(discriminate) eq_refl Ht Hi).
  assert (Hv : exists text',
            Route.validateAndFormat
              (JObj [("stateUpdates", Spec.deltaJson d); ("response", JStr text);
                     ("error", e)])
            = Ok [("stateUpdates", Spec.deltaJson d); ("response", JStr text');
                  ("error", e)]).
  { unfold Route.validateAndFormat.
    cbn [prop lookup String.eqb Ascii.eqb Bool.eqb truthy negb orb].
    rewrite (nonempty_eqb _ Htext). cbn [negb orb].
    destruct d as [rd [c|] sd]; eexists; reflexivity. }
  destruct Hv as (text' & ->).
  cbn [Route.status Route.body setField String.eqb Ascii.eqb Bool.eqb].
  split; [reflexivity|].
  unfold Helm.processCommand. rewrite Hgate. unfold Helm.tryBlock.
  cbn [isOk Z.leb Z.compare Pos.compare Pos.compare_cont andb negb
       prop lookup String.eqb Ascii.eqb Bool.eqb].
  rewrite He. eexists. split; [reflexivity|]. repeat split.
Qed.

Lemma interpreter_error_aborts_in_component_witness :
  let C := Demo.scripted "Helm, left 80 degrees rudder"
             (JObj [("stateUpdates",
                     Spec.deltaJson {| Spec.dRudder := Some (-35); Spec.dCourse := None;
                                       Spec.dSpeed := None |});
                    ("response", JStr "unable, rudder limit is 35 degrees");
                    ("error", JStr "rudder angle out of range")]) in
  exists ui' : Helm.UI,
    Pipeline.handleCommand true C Demo.onDevice "helm left 80" Helm.initialUI
      = Helm.Settled ui' /\
    Helm.shipState ui' = Helm.initialShipState /\
    Helm.commandLog ui' = [] /\
    Helm.toasts ui' =
      [{| Helm.title := "Command Error";
          Helm.description := "rudder angle out of range" |}] /\
    Helm.processingCommand ui' = false.
Proof.
  exact (proj2 (interpreter_error_aborts_in_component
           (Demo.scripted "Helm, left 80 degrees rudder"
              (JObj [("stateUpdates",
                      Spec.deltaJson {| Spec.dRudder := Some (-35); Spec.dCourse := None;
                                        Spec.dSpeed := None |});
                     ("response", JStr "unable, rudder limit is 35 degrees");
                     ("error", JStr "rudder angle out of range")]))
           Demo.onDevice "helm left 80" "Helm, left 80 degrees rudder"
           "unable, rudder limit is 35 degrees"
           {| Spec.dRudder := Some (-35); Spec.dCourse := None; Spec.dSpeed := None |}
           (JStr "rudder angle out of range") Helm.initialUI
           eq_refl ltac:(discriminate) ltac:(discriminate) eq_refl
           ltac:(scripted_interprets))).
Defined.

(** ** Extracting the object from the interpreter's text *)

Lemma fromFirst_skips (c : ascii) (pre rest : string) :
  containsChar c pre = false ->
  Route.fromFirst c (pre ++ String c rest) = Some (String c rest).
Proof.
  induction pre as [|a pre IH]; cbn.
  - now rewrite Ascii.eqb_refl.
  - intros H. apply orb_false_iff in H as [Ha Hp]. rewrite Ha. now apply IH.
Qed.

Lemma fromFirst_none (c : ascii) (s : string) :
  containsChar c s = false -> Route.fromFirst c s = None.
Proof.
  induction s as [|a s IH]; cbn; [reflexivity|].
  intros H. apply orb_false_iff in H as [Ha Hs]. rewrite Ha. now apply IH.
Qed.

Lemma uptoLast_none (c : ascii) (s : string) :
  containsChar c s = false -> Route.uptoLast c s = None.
Proof.
  induction s as [|a s IH]; cbn; [reflexivity|].
  intros H. apply orb_false_iff in H as [Ha Hs]. now rewrite (IH Hs), Ha.
Qed.

Lemma uptoLast_stops (c : ascii) (s post : string) :
  containsChar c post = false ->
  Route.uptoLast c (s ++ String c post) = Some (s ++ String c EmptyString).
Proof.
  intros Hpost. induction s as [|a s IH]; cbn.
  - now rewrite (uptoLast_none _ _ Hpost), Ascii.eqb_refl.
  - now rewrite IH.
Qed.

Lemma append_assoc (a b c : string) : (a ++ b) ++ c = a ++ (b ++ c).
Proof. induction a as [|x a IH]; cbn; [reflexivity | now rewrite IH]. Qed.

(** X5. Prose around the object is dropped before parsing: when the text
    before the first opening brace has none and the text after the last
    closing brace has none, what goes to [JSON.parse] is the text from
    that opening brace to that closing brace, whatever lies between them.
    A text without an opening brace goes to the parser whole. *)
Theorem jsonText_drops_surrounding_prose (pre mid post : string) :
  containsChar "{" pre = false -> containsChar "}" post = false ->
  Route.jsonText (pre ++ "{" ++ mid ++ "}" ++ post) = "{" ++ mid ++ "}" /\
  Route.jsonText pre = pre.
Proof.
  intros Hpre Hpost. unfold Route.jsonText, Route.matchObjectSpan. split.
  - change (pre ++ "{" ++ mid ++ "}" ++ post)
      with (pre ++ String "{" (mid ++ String "}" post)).
    rewrite (fromFirst_skips _ _ _ Hpre).
    change (String "{" (mid ++ String "}" post))
      with (String "{" mid ++ String "}" post).
    now rewrite (uptoLast_stops _ _ _ Hpost).
  - now rewrite (fromFirst_none _ _ Hpre).
Qed.

Lemma jsonText_drops_surrounding_prose_witness :
  Route.jsonText "Here is the JSON: {a{b}c} Hope this helps." = "{a{b}c}" /\
  Route.jsonText "Here is the JSON: " = "Here is the JSON: ".
Proof.
  exact (jsonText_drops_surrounding_prose "Here is the JSON: " "a{b}c"
           " Hope this helps." eq_refl eq_refl).
Defined.

(** ** The confirmation when it names no course *)

Lemma includes_unfold (p s : string) :
  includes p s =
    (startsWith p s ||
     match s with
     | EmptyString => false
     | String _ s' => includes p s'
     end).
Proof. destruct s; reflexivity. Qed.

Lemma replaceCourseRef_no_course (r s : string) :
  includes "course " s = false -> Route.replaceCourseRef r s = s.
Proof.
  induction s as [|c rest IH]; intros H.
  - reflexivity.
  - rewrite includes_unfold in H. apply orb_false_iff in H as [Hs Hrest].
    rewrite replaceCourseRef_unfold. unfold Route.courseRefAt. rewrite Hs.
    cbn [andb]. now rewrite (IH Hrest).
Qed.

(** X6. A confirmation that does not contain the word course followed by
    a space is sent back exactly as the interpreter wrote it, also when the
    delta sets a course: the pronunciation is only ever put in place of a
    course reference. *)
Theorem confirmation_without_course_is_unchanged
    (C : Route.Collaborators) (b cmd : json) (corrected : string)
    (d : Spec.StateDelta) (text : string) :
  b <> JNull -> prop "command" b = Some cmd -> truthy (Some cmd) = true ->
  text <> EmptyString -> includes "course " text = false ->
  Route.interpretsAs C cmd (prop "currentState" b) corrected
    (Spec.interpreterReply d text) ->
  prop "response" (Route.body (Route.POST true C (Some b))) = Some (JStr text).
Proof.
  intros Hb Hcmd Ht Htext Hno Hi.
  rewrite (POST_interpreted _ _ _ _ _ Hb Hcmd Ht Hi).
  rewrite (validateAndFormat_reply d text Htext).
  cbn [Route.body prop setField lookup String.eqb Ascii.eqb Bool.eqb].
  destruct (Spec.dCourse d); [|reflexivity].
  now rewrite (replaceCourseRef_no_course _ _ Hno).
Qed.

Lemma confirmation_without_course_is_unchanged_witness :
  prop "response"
    (Route.body
       (Route.POST true
          (Demo.scripted "Helm, steady on course zero niner zero"
             (Spec.interpreterReply
                {| Spec.dRudder := None; Spec.dCourse := Some 90; Spec.dSpeed := None |}
                "steady on 090, aye aye"))
          (Demo.requestOf "study on 090")))
  = Some (JStr "steady on 090, aye aye").
Proof.
  exact (confirmation_without_course_is_unchanged
           (Demo.scripted "Helm, steady on course zero niner zero"
              (Spec.interpreterReply
                 {| Spec.dRudder := None; Spec.dCourse := Some 90; Spec.dSpeed := None |}
                 "steady on 090, aye aye"))
           (Pipeline.requestBody "study on 090" Helm.initialShipState)
           (JStr "study on 090") "Helm, steady on course zero niner zero"
           {| Spec.dRudder := None; Spec.dCourse := Some 90; Spec.dSpeed := None |}
           "steady on 090, aye aye"
           ltac:(discriminate) eq_refl eq_refl ltac:(discriminate) eq_refl
           ltac:(scripted_interprets)).
Defined.

(** ** The course formatter outside the compass *)

Lemma formatNavalCourse_reads_back :
  forallb (fun n => match Spec.courseOfWords (Route.formatNavalCourse (Z.of_nat n)) with
                    | Some c => c =? Z.of_nat n
                    | None => false
                    end) (seq 0 1000) = true.
Proof. vm_compute. reflexivity. Qed.

Lemma formatNavalCourse_negative_table :
  forallb (fun n => Spec.hasEmptyWord (Route.formatNavalCourse (- Z.of_nat n)))
          (seq 1 999) = true.
Proof. vm_compute. reflexivity. Qed.

(** X7. No two numbers from 0 to 999 are pronounced alike; in particular
    a value from 360 up is pronounced with its own digits and not as the
    course it would be on the compass. *)
Theorem formatNavalCourse_injective (a b : Z) :
  0 <= a <= 999 -> 0 <= b <= 999 -> a <> b ->
  Route.formatNavalCourse a <> Route.formatNavalCourse b.
Proof.
  intros Ha Hb Hne Heq. apply Hne.
  assert (Hread : forall c, 0 <= c <= 999 ->
            Spec.courseOfWords (Route.formatNavalCourse c) = Some c).
  { intros c Hc.
    assert (Hin : In (Z.to_nat c) (seq 0 1000)) by (apply in_seq; lia).
    pose proof (proj1 (forallb_forall _ _) formatNavalCourse_reads_back _ Hin) as H.
    cbv beta in H. rewrite Z2Nat.id in H by lia.
    destruct (Spec.courseOfWords (Route.formatNavalCourse c)) as [c'|];
      [|discriminate].
    apply Z.eqb_eq in H. now subst. }
  pose proof (Hread a Ha) as H1. rewrite Heq, (Hread b Hb) in H1.
  now inversion H1.
Qed.

Lemma formatNavalCourse_injective_witness :
  0 <= 0 <= 999 /\ 0 <= 360 <= 999 /\
  Route.formatNavalCourse 0 <> Route.formatNavalCourse 360.
Proof.
  split; [lia|]. split; [lia|].
  apply (formatNavalCourse_injective 0 360); lia.
Defined.

(** X8. The formatter does not pronounce a sign: for a negative number
    down to -999 the minus sign leaves an empty word, so the result begins
    with a space or has two spaces in a row. *)
Theorem formatNavalCourse_negative_has_empty_word (c : Z) :
  -999 <= c <= -1 ->
  Spec.hasEmptyWord (Route.formatNavalCourse c) = true.
Proof.
  intros Hc.
  assert (Hin : In (Z.to_nat (- c)) (seq 1 999)) by (apply in_seq; lia).
  pose proof (proj1 (forallb_forall _ _) formatNavalCourse_negative_table _ Hin) as H.
  cbv beta in H. rewrite Z2Nat.id in H by lia.
  now rewrite Z.opp_involutive in H.
Qed.

Lemma formatNavalCourse_negative_has_empty_word_witness :
  -999 <= -5 <= -1 /\ Spec.hasEmptyWord (Route.formatNavalCourse (-5)) = true.
Proof.
  split; [lia | apply (formatNavalCourse_negative_has_empty_word (-5)); lia].
Defined.

(* ================================================================== *)
(** * Further properties of the component *)

(** ** The engine telegraph and the compass *)

(** X9. The name of a speed never goes down when the speed goes up, and
    it is always one of the nine names of the ladder, STOP for everything
    below 10. *)
Theorem getSpeedText_monotone (a b : Z) :
  a <= b ->
  (Spec.rankOf (Helm.getSpeedText a) <= Spec.rankOf (Helm.getSpeedText b))%nat /\
  In (Helm.getSpeedText a) Spec.ladder /\
  (a < 10 -> Helm.getSpeedText a = "STOP").
Proof.
  intros Hab. unfold Helm.getSpeedText.
  repeat match goal with
         | |- context [?x <=? ?y] => destruct (Z.leb_spec x y)
         end; try lia;
    (split; [apply Nat.leb_le; vm_compute; reflexivity
            | split; [cbn; tauto | intros; try reflexivity; lia]]).
Qed.

Lemma getSpeedText_monotone_witness :
  33 <= 50 /\
  (Spec.rankOf (Helm.getSpeedText 33) <= Spec.rankOf (Helm.getSpeedText 50))%nat.
Proof.
  split; [lia | apply (getSpeedText_monotone 33 50); lia].
Defined.

Lemma getSpeedText_below_10 (s : Z) : s < 10 -> Helm.getSpeedText s = "STOP".
Proof.
  intros Hs. unfold Helm.getSpeedText.
  repeat match goal with
         | |- context [?x <=? ?y] => destruct (Z.leb_spec x y); [lia|]
         end.
  reflexivity.
Qed.

Lemma orderLine_of_number (f g : string -> spec_float) (s : Z) :
  Helm.orderLine f (Some (JNum s)) = Helm.orderLine g (Some (JNum s)).
Proof. reflexivity. Qed.

Lemma orderLine_table : forallb Spec.orderLineAgrees (seq 0 2001) = true.
Proof. vm_compute. reflexivity. Qed.

(** On the integers from -1000 to 1000 the order line computed with the
    comparisons of doubles is the one computed with integers. *)
Lemma orderLine_engineOrder (f : string -> spec_float) (s : Z) :
  -1000 <= s <= 1000 ->
  Helm.orderLine f (Some (JNum s)) = Some (Helm.engineOrder s).
Proof.
  intros Hs.
  assert (Hin : In (Z.to_nat (s + 1000)) (seq 0 2001)) by (apply in_seq; lia).
  pose proof (proj1 (forallb_forall Spec.orderLineAgrees (seq 0 2001)) orderLine_table
                _ Hin) as Hok.
  unfold Spec.orderLineAgrees in Hok. cbv zeta in Hok.
  rewrite Z2Nat.id in Hok by lia.
  replace (s + 1000 - 1000) with s in Hok by lia.
  rewrite (orderLine_of_number f (fun _ => S754_nan)).
  destruct (Helm.orderLine _ _) as [line|]; [|discriminate].
  apply String.eqb_eq in Hok. now subst line.
Qed.

(** X10. For a speed under 10 in either direction the order line names
    the bucket STOP after the direction: ALL AHEAD STOP, ALL ASTERN STOP.
    The plain ALL STOP is shown for zero, and also when the state holds no
    number for the speed: [undefined], which a delta without a speed key
    leaves there, and [null]. *)
Theorem small_speed_reads_stop (numberOfText : string -> spec_float) (p : Z) :
  0 < p < 10 ->
  Helm.orderLine numberOfText (Some (JNum p)) = Some "ALL AHEAD STOP" /\
  Helm.orderLine numberOfText (Some (JNum (- p))) = Some "ALL ASTERN STOP" /\
  Helm.orderLine numberOfText (Some (JNum 0)) = Some "ALL STOP" /\
  Helm.orderLine numberOfText undefined = Some "ALL STOP" /\
  Helm.orderLine numberOfText (Some JNull) = Some "ALL STOP".
Proof.
  intros Hp.
  rewrite !orderLine_engineOrder by lia.
  unfold Helm.engineOrder.
  split; [|split; [|repeat split]].
  - destruct (Z.ltb_spec 0 p); [|lia].
    now rewrite getSpeedText_below_10 by lia.
  - destruct (Z.ltb_spec 0 (- p)); [lia|].
    destruct (Z.ltb_spec (- p) 0); [|lia].
    now rewrite getSpeedText_below_10 by lia.
Qed.

Lemma small_speed_reads_stop_witness :
  0 < 5 < 10 /\
  Helm.orderLine (fun _ => S754_nan) (Some (JNum 5)) = Some "ALL AHEAD STOP" /\
  Helm.orderLine (fun _ => S754_nan) (Some (JNum (- 5))) = Some "ALL ASTERN STOP" /\
  Helm.orderLine (fun _ => S754_nan) (Some (JNum 0)) = Some "ALL STOP" /\
  Helm.orderLine (fun _ => S754_nan) undefined = Some "ALL STOP" /\
  Helm.orderLine (fun _ => S754_nan) (Some JNull) = Some "ALL STOP".
Proof.
  split; [lia | apply (small_speed_reads_stop (fun _ => S754_nan) 5); lia].
Defined.



(** The quotient is rounded as a double before [Math.round] sees it: at
    this bearing, below 2^53, the exact quotient lies under the tie and the
    double lies on it, so the point shown is not the nearest one. *)
Example getCardinalDirection_rounds_the_quotient :
  Helm.getCardinalDirection 4503599627370491 = Some "NNE" /\
  Spec.nearestPoint 4503599627370491 = Some "N".
Proof. split; vm_compute; reflexivity. Qed.



Lemma compass_negative_table : forallb Spec.compassUndefined (seq 12 337) = true.
Proof. vm_compute. reflexivity. Qed.

(** X12. A negative bearing from -348 to -12 has no compass point: the
    index computed for it is negative and the table reads [undefined]. *)
Theorem getCardinalDirection_negative_is_undefined (d : Z) :
  -348 <= d <= -12 -> Helm.getCardinalDirection d = None.
Proof.
  intros Hd.
  assert (Hin : In (Z.to_nat (- d)) (seq 12 337)) by (apply in_seq; lia).
  pose proof (proj1 (forallb_forall Spec.compassUndefined (seq 12 337))
                compass_negative_table _ Hin) as Hok.
  unfold Spec.compassUndefined in Hok.
  rewrite Z2Nat.id in Hok by lia.
  replace (- - d) with d in Hok by lia.
  now destruct (Helm.getCardinalDirection d).
Qed.

Lemma getCardinalDirection_negative_is_undefined_witness :
  -348 <= -90 <= -12 /\ Helm.getCardinalDirection (-90) = None.
Proof.
  split; [lia | apply (getCardinalDirection_negative_is_undefined (-90)); lia].
Defined.

(** ** The helmsman's line of the command log *)



(** ** Merging, once more *)

(** X14. Merging the same [stateUpdates] a second time changes nothing,
    and two [stateUpdates] that never both set the same field can be
    merged in either order. *)
Theorem merge_idempotent_and_commutes (st : Helm.ShipState) (a b : json) :
  (notNull (prop "rudder" a) = false \/ notNull (prop "rudder" b) = false) ->
  (notNull (prop "course" a) = false \/ notNull (prop "course" b) = false) ->
  (notNull (prop "speed" a) = false \/ notNull (prop "speed" b) = false) ->
  Helm.merge (Helm.merge st a) b = Helm.merge (Helm.merge st b) a /\
  Helm.merge (Helm.merge st a) a = Helm.merge st a.
Proof.
  intros Hr Hc Hs. unfold Helm.merge. cbn [Helm.rudder Helm.course Helm.speed].
  split.
  - f_equal.
    + destruct Hr as [H|H]; rewrite H;
        destruct (notNull (prop "rudder" _)); reflexivity.
    + destruct Hc as [H|H]; rewrite H;
        destruct (notNull (prop "course" _)); reflexivity.
    + destruct Hs as [H|H]; rewrite H;
        destruct (notNull (prop "speed" _)); reflexivity.
  - f_equal;
      match goal with |- context [notNull ?v] => destruct (notNull v) end;
      reflexivity.
Qed.

Lemma merge_idempotent_and_commutes_witness :
  let rudderOnly := Spec.deltaJson {| Spec.dRudder := Some (-20); Spec.dCourse := None;
                                      Spec.dSpeed := None |} in
  let speedOnly := Spec.deltaJson {| Spec.dRudder := None; Spec.dCourse := None;
                                     Spec.dSpeed := Some 90 |} in
  Helm.merge (Helm.merge Helm.initialShipState rudderOnly) speedOnly
    = Helm.merge (Helm.merge Helm.initialShipState speedOnly) rudderOnly /\
  Helm.merge (Helm.merge Helm.initialShipState rudderOnly) rudderOnly
    = Helm.merge Helm.initialShipState rudderOnly.
Proof.
  exact (merge_idempotent_and_commutes Helm.initialShipState
           (Spec.deltaJson {| Spec.dRudder := Some (-20); Spec.dCourse := None;
                              Spec.dSpeed := None |})
           (Spec.deltaJson {| Spec.dRudder := None; Spec.dCourse := None;
                              Spec.dSpeed := Some 90 |})
           (or_intror eq_refl) (or_introl eq_refl) (or_introl eq_refl)).
Defined.

(** X15. What the whole pipeline does with the [rudder] and [speed] keys
    of a reply whose [course] is [null]: a key that is missing erases the
    field (it becomes [undefined]), a key that is [null] keeps it, and any
    other value, a number or not, is stored as it came.  The course is
    kept. *)
Theorem stateUpdates_keys_end_to_end
    (C : Route.Collaborators) (A : Helm.AudioEnv)
    (command corrected text : string) (su : list (string * json)) (ui : Helm.UI) :
  Helm.processingCommand ui = false ->
  command <> EmptyString -> text <> EmptyString ->
  lookup "course" su = Some JNull ->
  Route.interpretsAs C (JStr command)
    (Some (Pipeline.currentStateJson (Helm.shipState ui))) corrected
    (JObj [("stateUpdates", JObj su); ("response", JStr text)]) ->
  let st := Helm.shipState ui in
  let st' := Helm.shipState
               (Helm.stateOf (Pipeline.handleCommand true C A command ui)) in
  Helm.rudder st' = match lookup "rudder" su with
                    | None => undefined
                    | Some JNull => Helm.rudder st
                    | Some v => Some v
                    end /\
  Helm.speed st' = match lookup "speed" su with
                   | None => undefined
                   | Some JNull => Helm.speed st
                   | Some v => Some v
                   end /\
  Helm.course st' = Helm.course st.
Proof.
  intros Hgate Hcmd Htext Hcourse Hi st st'. subst st st'.
  unfold Pipeline.handleCommand, Pipeline.submit.
  assert (Ht : truthy (Some (JStr command)) = true)
    by (cbn; now rewrite (nonempty_eqb _ Hcmd)).
  rewrite (POST_interpreted C
             (Pipeline.requestBody command (Helm.shipState ui)) (JStr command)
             corrected _ ltac:(discriminate) eq_refl Ht Hi).
  assert (Hv : Route.validateAndFormat
                 (JObj [("stateUpdates", JObj su); ("response", JStr text)])
               = Ok [("stateUpdates", JObj su); ("response", JStr text)]).
  { unfold Route.validateAndFormat.
    cbn [prop lookup String.eqb Ascii.eqb Bool.eqb truthy negb orb].
    rewrite (nonempty_eqb _ Htext). cbn [negb orb]. now rewrite Hcourse. }
  rewrite Hv.
  cbn [Route.status Route.body setField String.eqb Ascii.eqb Bool.eqb].
  match goal with
  | |- context [Helm.processCommand A (Helm.FetchReplies 200 (Ok ?res)) command ui] =>
      destruct (processCommand_applied A 200 res command ui Hgate eq_refl
                  ltac:(discriminate) eq_refl) as (Hs & _)
  end.
  rewrite Hs. cbn [prop lookup String.eqb Ascii.eqb Bool.eqb truthy Helm.merge
                   Helm.rudder Helm.speed Helm.course].
  rewrite Hcourse. cbn [notNull].
  split; [|split; [|reflexivity]].
  - now destruct (lookup "rudder" su) as [[]|].
  - now destruct (lookup "speed" su) as [[]|].
Qed.

Lemma stateUpdates_keys_end_to_end_witness :
  let C := Demo.scripted "Helm, rudder amidships"
             (JObj [("stateUpdates", JObj [("rudder", JNum 0); ("course", JNull)]);
                    ("response", JStr "rudder amidships, aye aye")]) in
  let st' := Helm.shipState
               (Helm.stateOf
                  (Pipeline.handleCommand true C Demo.onDevice "rudder amidships"
                     Helm.initialUI)) in
  Helm.rudder st' = Some (JNum 0) /\ Helm.speed st' = undefined /\
  Helm.course st' = Some (JNum 0).
Proof.
  exact (stateUpdates_keys_end_to_end
           (Demo.scripted "Helm, rudder amidships"
              (JObj [("stateUpdates", JObj [("rudder", JNum 0); ("course", JNull)]);
                     ("response", JStr "rudder amidships, aye aye")]))
           Demo.onDevice "rudder amidships" "Helm, rudder amidships"
           "rudder amidships, aye aye" [("rudder", JNum 0); ("course", JNull)]
           Helm.initialUI
           eq_refl ltac:(discriminate) ltac:(discriminate) eq_refl
           ltac:(scripted_interprets)).
Defined.

(** ** Replies that cannot be read, muting, and a failing speech service *)

(** X16. When the request itself fails, or a 2xx answer has a body that is
    not JSON, nothing is applied: the ship's state, the log and the speech
    channels stay as they were, one Command Error notification carries the
    message of the error, and the gate is open again. *)
Theorem unreadable_reply_has_no_effect
    (A : Helm.AudioEnv) (net : Helm.FetchOutcome) (message command : string)
    (ui : Helm.UI) :
  Helm.processingCommand ui = false ->
  (net = Helm.FetchRejects message \/
   exists status : Z, isOk status = true /\
                      net = Helm.FetchReplies status (Throw message)) ->
  exists ui' : Helm.UI,
    Helm.processCommand A net command ui = Helm.Settled ui' /\
    Helm.shipState ui' = Helm.shipState ui /\
    Helm.commandLog ui' = Helm.commandLog ui /\
    Helm.dispatched ui' = Helm.dispatched ui /\
    Helm.toasts ui' =
      (Helm.toasts ui ++
       [{| Helm.title := "Command Error"; Helm.description := message |}])%list /\
    Helm.processingCommand ui' = false.
Proof.
  intros Hgate [-> | (status & Hok & ->)];
    unfold Helm.processCommand; rewrite Hgate; unfold Helm.tryBlock;
    rewrite ?Hok; cbn [negb]; eexists; (split; [reflexivity|]); repeat split.
Qed.

Lemma unreadable_reply_has_no_effect_witness :
  exists ui' : Helm.UI,
    Helm.processCommand Demo.onDevice (Helm.FetchRejects "Failed to fetch")
      "helm left 20" Helm.initialUI = Helm.Settled ui' /\
    Helm.shipState ui' = Helm.shipState Helm.initialUI /\
    Helm.commandLog ui' = Helm.commandLog Helm.initialUI /\
    Helm.dispatched ui' = Helm.dispatched Helm.initialUI /\
    Helm.toasts ui' =
      (Helm.toasts Helm.initialUI ++
       [{| Helm.title := "Command Error"; Helm.description := "Failed to fetch" |}])%list /\
    Helm.processingCommand ui' = false.
Proof.
  exact (unreadable_reply_has_no_effect Demo.onDevice
           (Helm.FetchRejects "Failed to fetch") "Failed to fetch" "helm left 20"
           Helm.initialUI eq_refl (or_introl eq_refl)).
Defined.

Lemma tryBlock_passes
    (A : Helm.AudioEnv) (status : Z) (result : json) (command : string)
    (ui : Helm.UI) :
  isOk status = true -> result <> JNull -> truthy (prop "error" result) = false ->
  Helm.tryBlock A (Helm.FetchReplies status (Ok result)) command ui
    = Helm.applyResult A result command ui.
Proof.
  intros Hok Hnn Herr. unfold Helm.tryBlock. rewrite Hok. cbn [negb].
  destruct result; try congruence;
    (destruct (prop "error" _) as [e|] eqn:He; [|reflexivity]);
    rewrite Herr; reflexivity.
Qed.

(** The state just before the confirmation is spoken. *)
Lemma applyResult_before_speech
    (A : Helm.AudioEnv) (result : json) (command : string) (ui : Helm.UI) :
  exists ui4 : Helm.UI,
    Helm.applyResult A result command ui
      = Helm.playAudioResponse A (prop "response" result) ui4 /\
    Helm.isMuted ui4 = Helm.isMuted ui /\
    Helm.toasts ui4 = Helm.toasts ui /\
    Helm.dispatched ui4 = Helm.dispatched ui /\
    Helm.processingCommand ui4 = Helm.processingCommand ui /\
    Helm.transcript ui4 = Helm.transcript ui /\
    Helm.commandLog ui4
      = Helm.pushLog (Helm.logEntry result command) (Helm.commandLog ui) /\
    Helm.lastCommand ui4 = Helm.logEntry result command /\
    Helm.screenResponse ui4 = prop "response" result /\
    Helm.shipState ui4 =
      match prop "stateUpdates" result with
      | Some su => if truthy (Some su) then Helm.merge (Helm.shipState ui) su
                   else Helm.shipState ui
      | None => Helm.shipState ui
      end.
Proof.
  unfold Helm.applyResult. eexists. split; [reflexivity|].
  destruct (prop "stateUpdates" result) as [su|]; [destruct (truthy (Some su))|];
    repeat split.
Qed.

(** X17. With the responses muted a reply that passes the checks is
    applied and the call settles with the gate open, without a
    notification and without anything handed to a speech channel, whatever
    the state of the speech service and of the speech synthesis. *)
Theorem muted_command_needs_no_audio
    (A : Helm.AudioEnv) (status : Z) (result : json) (command : string)
    (ui : Helm.UI) :
  Helm.isMuted ui = true -> Helm.processingCommand ui = false ->
  isOk status = true -> result <> JNull -> truthy (prop "error" result) = false ->
  exists ui' : Helm.UI,
    Helm.processCommand A (Helm.FetchReplies status (Ok result)) command ui
      = Helm.Settled ui' /\
    Helm.toasts ui' = Helm.toasts ui /\
    Helm.dispatched ui' = Helm.dispatched ui /\
    Helm.processingCommand ui' = false /\
    Helm.commandLog ui'
      = Helm.pushLog (Helm.logEntry result command) (Helm.commandLog ui) /\
    Helm.screenResponse ui' = prop "response" result.
Proof.
  intros Hm Hgate Hok Hnn Herr.
  unfold Helm.processCommand. rewrite Hgate.
  rewrite (tryBlock_passes A status result command _ Hok Hnn Herr).
  destruct (applyResult_before_speech A result command
              (Helm.setProcessingCommand true ui))
    as (ui4 & -> & Hm4 & Ht & Hd & _ & _ & Hl & _ & Hr & _).
  unfold Helm.playAudioResponse. cbn [Helm.isMuted Helm.setProcessingCommand] in Hm4.
  rewrite Hm4, Hm.
  eexists. split; [reflexivity|].
  cbn [Helm.toasts Helm.dispatched Helm.processingCommand Helm.commandLog
       Helm.screenResponse Helm.setProcessingCommand].
  repeat split; assumption.
Qed.

Lemma muted_command_needs_no_audio_witness :
  let A := {| Helm.ELEVENLABS_API_KEY := None; Helm.ttsFetch := Helm.TtsStatus 500;
              Helm.playback := Helm.PlayErrorEvent; Helm.voices := [];
              Helm.utterance := Helm.UtteranceFails |} in
  let ui := {| Helm.shipState := Helm.initialShipState; Helm.isMuted := true;
               Helm.lastCommand := JStr ""; Helm.commandLog := [];
               Helm.screenResponse := Some (JStr "");
               Helm.processingCommand := false; Helm.transcript := "";
               Helm.toasts := []; Helm.dispatched := [] |} in
  exists ui' : Helm.UI,
    Helm.processCommand A (Helm.FetchReplies 200 (Ok Demo.left20Reply))
      "helm love 20" ui = Helm.Settled ui' /\
    Helm.toasts ui' = [] /\ Helm.dispatched ui' = [] /\
    Helm.processingCommand ui' = false /\
    Helm.commandLog ui' = [JStr "Helm, left 20 degrees rudder"] /\
    Helm.screenResponse ui' = Some (JStr "left 20 degrees rudder, aye aye").
Proof.
  exact (muted_command_needs_no_audio
           {| Helm.ELEVENLABS_API_KEY := None; Helm.ttsFetch := Helm.TtsStatus 500;
              Helm.playback := Helm.PlayErrorEvent; Helm.voices := [];
              Helm.utterance := Helm.UtteranceFails |}
           200 Demo.left20Reply "helm love 20"
           {| Helm.shipState := Helm.initialShipState; Helm.isMuted := true;
              Helm.lastCommand := JStr ""; Helm.commandLog := [];
              Helm.screenResponse := Some (JStr "");
              Helm.processingCommand := false; Helm.transcript := "";
              Helm.toasts := []; Helm.dispatched := [] |}
           eq_refl eq_refl eq_refl ltac:(discriminate) eq_refl).
Defined.

(** X18. When the speech service answers outside 2xx the command has
    already been applied and stays applied: the ship's state is the merged
    one and the log has its new entry.  Two notifications are raised, the
    Audio Error of the dispatcher and then a Command Error with the status
    of the service, and the gate is open again. *)
Theorem failing_speech_service_keeps_the_command
    (A : Helm.AudioEnv) (service status : Z) (result : json) (command : string)
    (ui : Helm.UI) :
  Helm.isMuted ui = false -> Helm.processingCommand ui = false ->
  Helm.keyConfigured A = true -> Helm.ttsFetch A = Helm.TtsStatus service ->
  isOk service = false ->
  isOk status = true -> result <> JNull -> truthy (prop "error" result) = false ->
  exists ui' : Helm.UI,
    Helm.processCommand A (Helm.FetchReplies status (Ok result)) command ui
      = Helm.Settled ui' /\
    Helm.shipState ui' =
      match prop "stateUpdates" result with
      | Some su => if truthy (Some su) then Helm.merge (Helm.shipState ui) su
                   else Helm.shipState ui
      | None => Helm.shipState ui
      end /\
    Helm.commandLog ui'
      = Helm.pushLog (Helm.logEntry result command) (Helm.commandLog ui) /\
    Helm.toasts ui' =
      (Helm.toasts ui ++
       [Helm.audioErrorToast;
        {| Helm.title := "Command Error";
           Helm.description := "ElevenLabs API error: " ++ numToString service |}])%list /\
    Helm.processingCommand ui' = false.
Proof.
  intros Hm Hgate Hkey Hfetch Hsvc Hok Hnn Herr.
  unfold Helm.processCommand. rewrite Hgate.
  rewrite (tryBlock_passes A status result command _ Hok Hnn Herr).
  destruct (applyResult_before_speech A result command
              (Helm.setProcessingCommand true ui))
    as (ui4 & -> & Hm4 & Ht & _ & _ & _ & Hl & _ & _ & Hs).
  unfold Helm.playAudioResponse. cbn [Helm.isMuted Helm.setProcessingCommand] in Hm4.
  rewrite Hm4, Hm, Hkey, Hfetch, Hsvc. cbn [negb].
  eexists. split; [reflexivity|].
  cbn [Helm.toasts Helm.dispatched Helm.processingCommand Helm.commandLog
       Helm.shipState Helm.setProcessingCommand Helm.toast Helm.dispatch
       Helm.commandErrorToast].
  rewrite Ht, Hl, Hs. cbn [Helm.toasts Helm.commandLog Helm.shipState
                           Helm.setProcessingCommand].
  rewrite <- app_assoc. repeat split.
Qed.

Lemma failing_speech_service_keeps_the_command_witness :
  exists ui' : Helm.UI,
    Helm.processCommand (Demo.viaService 503)
      (Helm.FetchReplies 200 (Ok Demo.left20Reply)) "helm love 20" Helm.initialUI
      = Helm.Settled ui' /\
    Helm.shipState ui' =
      {| Helm.rudder := Some (JNum (-20)); Helm.course := Some (JNum 0);
         Helm.speed := Some (JNum 0) |} /\
    Helm.commandLog ui' = [JStr "Helm, left 20 degrees rudder"] /\
    Helm.toasts ui' =
      [Helm.audioErrorToast;
       {| Helm.title := "Command Error";
          Helm.description := "ElevenLabs API error: 503" |}] /\
    Helm.processingCommand ui' = false.
Proof.
  exact (failing_speech_service_keeps_the_command (Demo.viaService 503) 503 200
           Demo.left20Reply "helm love 20" Helm.initialUI
           eq_refl eq_refl eq_refl eq_refl eq_refl eq_refl
           ltac:(discriminate) eq_refl).
Defined.

(** ** The gate over a session *)

(** X19. When the effect on the transcript settles, the transcript is
    empty and the gate is open: the next recognised text is taken. *)
Theorem settled_effect_is_ready_for_the_next
    (A : Helm.AudioEnv) (net : Helm.FetchOutcome) (ui ui' : Helm.UI) :
  Helm.processingCommand ui = false ->
  Helm.transcriptEffect A net ui = Helm.Settled ui' ->
  Helm.transcript ui' = EmptyString /\ Helm.processingCommand ui' = false.
Proof.
  intros Hgate. unfold Helm.transcriptEffect. rewrite Hgate, orb_false_r.
  destruct (String.eqb (Helm.transcript ui) EmptyString) eqn:He.
  - intros H. inversion H; subst ui'. apply String.eqb_eq in He. now split.
  - destruct (Helm.processCommand A net (Helm.transcript ui) ui) as [ui2|ui2] eqn:Hp;
      [|discriminate].
    intros H. inversion H; subst ui'. split; [reflexivity|].
    cbn [Helm.processingCommand Helm.setTranscript].
    exact (settled_call_releases_the_gate A net _ ui ui2 Hgate Hp).
Qed.

Lemma settled_effect_is_ready_for_the_next_witness :
  Helm.transcript
    (Helm.hear Demo.onDevice (Helm.FetchReplies 200 (Ok Demo.left20Reply))
       "helm love 20" Helm.initialUI) = EmptyString /\
  Helm.processingCommand
    (Helm.hear Demo.onDevice (Helm.FetchReplies 200 (Ok Demo.left20Reply))
       "helm love 20" Helm.initialUI) = false.
Proof.
  exact (settled_effect_is_ready_for_the_next Demo.onDevice
           (Helm.FetchReplies 200 (Ok Demo.left20Reply))
           (Helm.transcriptArrives "helm love 20" Helm.initialUI) _
           eq_refl eq_refl).
Defined.

Lemma Forall_firstn_keeps (A : Type) (P : A -> Prop) (n : nat) (l : list A) :
  Forall P l -> Forall P (firstn n l).
Proof.
  revert l. induction n as [|n IH]; intros l H; [constructor|].
  destruct H; cbn; constructor; auto.
Qed.

Lemma logEntry_truthy (result : json) (command : string) :
  command <> EmptyString -> truthy (Some (Helm.logEntry result command)) = true.
Proof.
  intros Hc. unfold Helm.logEntry.
  destruct (prop "correctedCommand" result) as [v|];
    [destruct (truthy (Some v)) eqn:Hv; [exact Hv|]|];
    cbn; now rewrite (nonempty_eqb _ Hc).
Qed.

(** What a call can do to the log and to the last command: nothing, or
    put the entry of one reply at the head. *)
Lemma tryBlock_log_cases
    (A : Helm.AudioEnv) (net : Helm.FetchOutcome) (command : string) (ui : Helm.UI) :
  let ui' := fst (Helm.tryBlock A net command ui) in
  (Helm.commandLog ui' = Helm.commandLog ui /\
   Helm.lastCommand ui' = Helm.lastCommand ui) \/
  (exists result : json,
     Helm.commandLog ui'
       = Helm.pushLog (Helm.logEntry result command) (Helm.commandLog ui) /\
     Helm.lastCommand ui' = Helm.logEntry result command).
Proof.
  unfold Helm.tryBlock.
  destruct net as [m|status parsed]; [left; split; reflexivity|].
  destruct (isOk status); cbn [negb]; [|left; split; reflexivity].
  destruct parsed as [result|m]; [|left; split; reflexivity].
  assert (Happ :
    (Helm.commandLog (fst (Helm.applyResult A result command ui)) = Helm.commandLog ui /\
     Helm.lastCommand (fst (Helm.applyResult A result command ui)) = Helm.lastCommand ui) \/
    (exists result' : json,
       Helm.commandLog (fst (Helm.applyResult A result command ui))
         = Helm.pushLog (Helm.logEntry result' command) (Helm.commandLog ui) /\
       Helm.lastCommand (fst (Helm.applyResult A result command ui))
         = Helm.logEntry result' command)).
  { destruct (applyResult_before_speech A result command ui)
      as (ui4 & -> & _ & _ & _ & _ & _ & Hl & Hlast & _).
    destruct (playAudioResponse_frame A (prop "response" result) ui4)
      as (_ & Hl' & Hc' & _).
    right. exists result. rewrite Hl', Hc'. now split. }
  destruct result; try (left; split; reflexivity);
    (destruct (prop "error" _) as [e|];
     [destruct (truthy (Some e)); [left; split; reflexivity | exact Happ]
     | exact Happ]).
Qed.

Lemma hear_log_cases
    (A : Helm.AudioEnv) (net : Helm.FetchOutcome) (text : string) (ui : Helm.UI) :
  let ui' := Helm.hear A net text ui in
  (Helm.commandLog ui' = Helm.commandLog ui /\
   Helm.lastCommand ui' = Helm.lastCommand ui) \/
  (text <> EmptyString /\
   exists result : json,
     Helm.commandLog ui'
       = Helm.pushLog (Helm.logEntry result text) (Helm.commandLog ui) /\
     Helm.lastCommand ui' = Helm.logEntry result text).
Proof.
  unfold Helm.hear, Helm.transcriptEffect, Helm.transcriptArrives.
  cbn [Helm.transcript Helm.processingCommand Helm.setTranscript].
  destruct (String.eqb text EmptyString) eqn:He; [left; split; reflexivity|].
  apply String.eqb_neq in He.
  destruct (Helm.processingCommand ui) eqn:Hgate; [left; split; reflexivity|].
  cbn [orb]. unfold Helm.processCommand.
  cbn [Helm.processingCommand Helm.setTranscript]. rewrite Hgate.
  pose proof (tryBlock_log_cases A net text
                (Helm.setProcessingCommand true (Helm.setTranscript text ui))) as H.
  destruct (Helm.tryBlock A net text
              (Helm.setProcessingCommand true (Helm.setTranscript text ui)))
    as [ui2 r].
  cbn [fst Helm.commandLog Helm.lastCommand Helm.setProcessingCommand
       Helm.setTranscript] in H.
  destruct H as [H | H]; [left | right; split; [exact He|]];
    destruct r; exact H.
Qed.

Lemma hear_keeps_logInvariant
    (A : Helm.AudioEnv) (net : Helm.FetchOutcome) (text : string) (ui : Helm.UI) :
  Helm.logInvariant ui -> Helm.logInvariant (Helm.hear A net text ui).
Proof.
  intros (Hlen & Hall & Hhead).
  destruct (hear_log_cases A net text ui) as [(Hl & Hc) | (Ht & result & Hl & Hc)];
    unfold Helm.logInvariant; rewrite Hl, Hc.
  - repeat split; assumption.
  - unfold Helm.pushLog. split; [|split].
    + rewrite length_firstn. lia.
    + apply Forall_firstn_keeps. constructor; [|exact Hall].
      now apply logEntry_truthy.
    + right. reflexivity.
Qed.

Lemma session_keeps_logInvariant
    (steps : list (Helm.AudioEnv * Helm.FetchOutcome * string)) (ui : Helm.UI) :
  Helm.logInvariant ui -> Helm.logInvariant (Helm.session steps ui).
Proof.
  revert ui. induction steps as [|[[A net] text] rest IH]; intros ui H.
  - exact H.
  - cbn. apply IH. now apply hear_keeps_logInvariant.
Qed.

Lemma initialUI_logInvariant : Helm.logInvariant Helm.initialUI.
Proof.
  unfold Helm.logInvariant. cbn. repeat split; [lia | constructor | now left].
Qed.

(** X20. Through a whole session, whatever is heard and whatever the
    replies and the audio do, the log never holds more than 5 entries. *)
Theorem session_log_is_bounded
    (steps : list (Helm.AudioEnv * Helm.FetchOutcome * string)) :
  (length (Helm.commandLog (Helm.session steps Helm.initialUI)) <= 5)%nat.
Proof.
  exact (proj1 (session_keeps_logInvariant steps _ initialUI_logInvariant)).
Qed.

(** X21. Through a whole session every entry of the log is a value that
    counts as true: neither an empty command nor [null] is ever logged,
    because an empty transcript starts no command and an empty corrected
    command gives way to the transcript. *)
Theorem session_log_entries_are_truthy
    (steps : list (Helm.AudioEnv * Helm.FetchOutcome * string)) :
  Forall (fun entry => truthy (Some entry) = true)
         (Helm.commandLog (Helm.session steps Helm.initialUI)).
Proof.
  exact (proj1 (proj2 (session_keeps_logInvariant steps _ initialUI_logInvariant))).
Qed.

(** X22. Through a whole session the last command shown is the entry at
    the head of the log, or both are still the initial ones. *)
Theorem session_last_command_heads_the_log
    (steps : list (Helm.AudioEnv * Helm.FetchOutcome * string)) :
  let ui := Helm.session steps Helm.initialUI in
  (Helm.commandLog ui = [] /\ Helm.lastCommand ui = JStr EmptyString) \/
  hd_error (Helm.commandLog ui) = Some (Helm.lastCommand ui).
Proof.
  exact (proj2 (proj2 (session_keeps_logInvariant steps _ initialUI_logInvariant))).
Qed.

(** X23. A call of [processCommand] stays suspended for ever whenever the
    gate was open, the reply passed the checks, the responses are not
    muted, the key of the speech service is not configured, and the
    utterance handed to the speech synthesis fails instead of ending; the
    gate is then left held. *)
Theorem failed_utterance_suspends_the_call
    (A : Helm.AudioEnv) (command : string) (ui : Helm.UI)
    (status : Z) (result : json) :
  Helm.processingCommand ui = false -> Helm.isMuted ui = false ->
  Helm.keyConfigured A = false -> Helm.utterance A = Helm.UtteranceFails ->
  isOk status = true -> result <> JNull -> truthy (prop "error" result) = false ->
  exists ui' : Helm.UI,
    Helm.processCommand A (Helm.FetchReplies status (Ok result)) command ui
      = Helm.Suspended ui' /\
    Helm.processingCommand ui' = true.
Proof.
  intros Hgate Hm Hk Hu Hok Hnn Herr.
  assert (Hrun : exists ui' : Helm.UI,
            Helm.processCommand A (Helm.FetchReplies status (Ok result)) command ui
              = Helm.Suspended ui').
  { unfold Helm.processCommand. rewrite Hgate.
    rewrite (tryBlock_passes A status result command _ Hok Hnn Herr).
    destruct (applyResult_before_speech A result command
                (Helm.setProcessingCommand true ui))
      as (ui4 & -> & Hm4 & _).
    unfold Helm.playAudioResponse.
    cbn [Helm.isMuted Helm.setProcessingCommand] in Hm4.
    rewrite Hm4, Hm, Hk, Hu. eexists. reflexivity. }
  destruct Hrun as (ui' & Hrun). exists ui'. split; [exact Hrun|].
  exact (suspended_call_holds_the_gate A _ command ui ui' Hrun).
Qed.

Lemma failed_utterance_suspends_the_call_witness :
  exists ui' : Helm.UI,
    Helm.processCommand Demo.onDeviceFailing
      (Helm.FetchReplies 200 (Ok Demo.left20Reply)) "helm love 20" Helm.initialUI
      = Helm.Suspended ui' /\
    Helm.processingCommand ui' = true.
Proof.
  exact (failed_utterance_suspends_the_call Demo.onDeviceFailing "helm love 20"
           Helm.initialUI 200 Demo.left20Reply
           eq_refl eq_refl eq_refl eq_refl eq_refl ltac:(discriminate) eq_refl).
Defined.

Lemma displayedBucket_ahead_ladder_witness :
  -109 <= -75 <= 109 /\ -75 <> 0 /\
  Helm.displayedBucket (-75) = option_map toUpperCase (Spec.aheadBucketName (-75)).
Proof.
  split; [lia|]. split; [lia|].
  apply (displayedBucket_ahead_ladder (-75)); lia.
Defined.

Lemma route_failure_has_no_effect_witness :
  exists ui' : Helm.UI,
    Pipeline.handleCommand false Demo.left20 Demo.onDevice "helm love 20"
      Helm.initialUI = Helm.Settled ui' /\
    Helm.shipState ui' = Helm.shipState Helm.initialUI /\
    Helm.commandLog ui' = Helm.commandLog Helm.initialUI /\
    length (Helm.toasts ui') = S (length (Helm.toasts Helm.initialUI)) /\
    Helm.processingCommand ui' = false.
Proof.
  apply (route_failure_has_no_effect false Demo.left20 Demo.onDevice "helm love 20"
           Helm.initialUI).
  - reflexivity.
  - cbn. lia.
Defined.
